(** * The parallel pipeline manager of DeepPavlov

    A shallow embedding of
    [deeppavlov/pipeline_manager/pipeline_manager_parallel.py]: the
    resource planning of [PipelineManager.prepare_multiprocess], the worker
    entry point [train_pipe], the round-robin generator [gpu_gen], the
    aggregation loop [update_logger] and the checkpoint retention at the end
    of [run].

    Conventions.  Python integers are [Z]; metric values and clock readings
    are finite numbers, embedded as the rationals [Qc] (so that the stored
    values compare with Leibniz equality); a Python [dict] used as a map is
    a [gmap]; a raised exception is the [Raise] branch of [result]; a call
    that never comes back is the [Hangs] branch of [ending]. *)

From Stdlib Require Import ZArith QArith Qcanon.
From stdpp Require Import gmap strings list fin_maps numbers pretty.

Open Scope Z_scope.

(** ** Exceptions and fallible computations *)

Inductive exn : Type :=
  | ValueError
  | ConfigError
  | KeyError (key : string)
  | IndexError
  | ZeroDivisionError
  | TypeError
  | FileNotFoundError
  | FileExistsError
  | NotADirectoryError
  | ShutilError.

Inductive result (A : Type) : Type :=
  | Ok (a : A)
  | Raise (e : exn).
Arguments Ok {A} a.
Arguments Raise {A} e.

#[global] Instance result_ret : MRet result := λ A a, Ok a.
#[global] Instance result_bind : MBind result := λ A B f m,
  match m with Ok a => f a | Raise e => Raise e end.

Definition is_Ok {A} (r : result A) : bool :=
  match r with Ok _ => true | Raise _ => false end.

(** [d[k]] on a Python dict: [KeyError] when the key is absent. *)
Definition getitem {V} (d : gmap string V) (k : string) : result V :=
  match d !! k with Some v => Ok v | None => Raise (KeyError k) end.

(** ** The manager object

    The attributes of [PipelineManager] that the modelled methods read or
    write.  [max_num_workers_] is the constructor argument, [max_num_workers]
    and [available_gpu] are the "main multiprocessing attributes" that
    [__init__] sets to [None] before planning. *)

Record PipelineManager : Type := mkManager {
  cross_validation : bool;
  k_fold : Z;
  save_best : bool;
  target_metric : option string;
  multiprocessing : bool;
  use_all_gpus : bool;
  use_multi_gpus : option (list Z);
  max_num_workers_ : option Z;
  max_num_workers : option Z;
  available_gpu : option (list Z)
}.

Definition set_max_num_workers_ (v : option Z) (self : PipelineManager) :=
  mkManager (cross_validation self) (k_fold self) (save_best self)
    (target_metric self) (multiprocessing self) (use_all_gpus self)
    (use_multi_gpus self) v (max_num_workers self) (available_gpu self).

Definition set_max_num_workers (v : option Z) (self : PipelineManager) :=
  mkManager (cross_validation self) (k_fold self) (save_best self)
    (target_metric self) (multiprocessing self) (use_all_gpus self)
    (use_multi_gpus self) (max_num_workers_ self) v (available_gpu self).

Definition set_available_gpu (v : option (list Z)) (self : PipelineManager) :=
  mkManager (cross_validation self) (k_fold self) (save_best self)
    (target_metric self) (multiprocessing self) (use_all_gpus self)
    (use_multi_gpus self) (max_num_workers_ self) (max_num_workers self) v.

Definition set_target_metric (v : option string) (self : PipelineManager) :=
  mkManager (cross_validation self) (k_fold self) (save_best self)
    v (multiprocessing self) (use_all_gpus self)
    (use_multi_gpus self) (max_num_workers_ self) (max_num_workers self)
    (available_gpu self).

(** Python truth values of the two optional attributes. *)
Definition truthy_list {A} (o : option (list A)) : bool :=
  match o with Some (_ :: _) => true | _ => false end.

Definition truthy_int (o : option Z) : bool :=
  match o with Some n => negb (n =? 0) | None => false end.

Definition len {A} (l : list A) : Z := Z.of_nat (length l).

(** [l[0:n]], with Python's reading of a negative bound. *)
Definition slice_to {A} (l : list A) (n : Z) : list A :=
  if 0 <=? n then take (Z.to_nat n) l
  else take (length l - Z.to_nat (- n))%nat l.

(** What [prepare_multiprocess] prints. *)
Inductive printed : Type :=
  | WarnMaxNumWorkers (requested cpu : Z)
  | WarnGpuBusy (ind : Z).

(** ** Resource planning *)

Section Allocator.

(** The host, as the probes the module imports report it: [psutil]'s
    [cpu_count()], and [get_num_gpu], [get_available_gpus] (with its
    optional [num_gpus]) and [check_gpu_available] of
    [pipeline_manager.utils].  [int_times_07 n] is the value of the
    Python expression [int(n * 0.7)], a double-precision product
    truncated to an integer. *)
Variable cpu_count : Z.
Variable get_num_gpu : Z.
Variable get_available_gpus : option Z → list Z.
Variable check_gpu_available : Z → bool.
Variable int_times_07 : Z → Z.

(** The loop over [use_multi_gpus]: idle indices are appended, a busy one
    is reported. *)
Fixpoint check_gpus (inds : list Z) : list Z * list printed :=
  match inds with
  | [] => ([], [])
  | ind :: rest =>
      let '(avail, out) := check_gpus rest in
      if check_gpu_available ind then (ind :: avail, out)
      else (avail, WarnGpuBusy ind :: out)
  end.

Definition prepare_multiprocess (self : PipelineManager)
  : list printed * result PipelineManager :=
  let cpu_num := cpu_count in
  let gpu_num := get_num_gpu in
  let '(out, self) :=
    match max_num_workers_ self with
    | Some w =>
        if cpu_num <? w
        then ([WarnMaxNumWorkers w cpu_num],
              set_max_num_workers_ (Some cpu_num) self)
        else ([], self)
    | None => ([], self)
    end in
  if use_all_gpus self then
    if truthy_list (use_multi_gpus self) then (out, Raise ValueError)
    else
      match max_num_workers_ self with
      | None =>
          let gpus := get_available_gpus None in
          let self := set_available_gpu (Some gpus) self in
          if len gpus <? int_times_07 cpu_count
          then (out, Ok (set_max_num_workers (Some (len gpus)) self))
          else (out, Ok (set_max_num_workers
                           (Some (int_times_07 cpu_count)) self))
      | Some w =>
          if gpu_num <? w
          then (out, Ok (set_available_gpu (Some (get_available_gpus None))
                           (set_max_num_workers (Some gpu_num) self)))
          else (out, Ok (set_available_gpu
                           (Some (get_available_gpus (Some w))) self))
      end
  else if truthy_list (use_multi_gpus self) then
    if use_all_gpus self then (out, Raise ValueError)
    else
      let '(gpus, busy) := check_gpus (default [] (use_multi_gpus self)) in
      let self := set_available_gpu (Some gpus) self in
      if negb (truthy_int (max_num_workers_ self))
      then (out ++ busy, Ok (set_max_num_workers (Some (len gpus)) self))
      else
        let w := default 0 (max_num_workers_ self) in
        if len gpus <? w
        then (out ++ busy, Ok (set_max_num_workers (Some (len gpus)) self))
        else (out ++ busy,
              Ok (set_available_gpu (Some (slice_to gpus w))
                    (set_max_num_workers (Some w) self)))
  else (out, Ok (set_max_num_workers (max_num_workers_ self) self)).

(** The part of [__init__] that matters here: the two main attributes
    start as [None], and planning runs only when [multiprocessing] is
    set. *)
Definition init (args : PipelineManager)
  : list printed * result PipelineManager :=
  let self := set_available_gpu None (set_max_num_workers None args) in
  if multiprocessing self then prepare_multiprocess self
  else ([], Ok self).

End Allocator.

(** ** Job configurations and job results *)

(** A pipeline configuration, with the entries the manager reads:
    [pipe['dataset_reader']['data_path']], [pipe['train']['metrics']],
    [pipe['train'].get('batch_size')] and [pipe['chainer']['pipe']] (the
    component names). *)
Record JobConfig : Type := mkConfig {
  data_path : string;
  train_metrics : list string;
  train_batch_size : option Z;
  chainer_pipe : list string
}.

(** Metrics: split name to metric name to value. *)
Abbreviation metric_map := (gmap string Qc).
Abbreviation metrics := (gmap string (gmap string Qc)).

(** The values stored in the dictionary that a worker returns. *)
Inductive pyval : Type :=
  | VConfig (c : JobConfig)
  | VMetrics (m : metrics)
  | VFloat (x : Qc).

Abbreviation job_result := (gmap string pyval).

Definition as_config (v : pyval) : result JobConfig :=
  match v with VConfig c => Ok c | _ => Raise TypeError end.
Definition as_metrics (v : pyval) : result metrics :=
  match v with VMetrics m => Ok m | _ => Raise TypeError end.
Definition as_float (v : pyval) : result Qc :=
  match v with VFloat x => Ok x | _ => Raise TypeError end.

(** The argument tuple of [train_pipe] once [unpack_args] has spread it;
    [gpu] and [gpu_ind] default to [False] and [None]. *)
Record train_args : Type := mkArgs {
  pipe_config : JobConfig;
  arg_cross_validation : bool;
  arg_k_fold : Z;
  gpu : bool;
  gpu_ind : option Z
}.

Definition CUDA_VISIBLE_DEVICES : string := "CUDA_VISIBLE_DEVICES".

(** ** The worker *)

Section Worker.

(** The training code, outside this module.  It sees the process
    environment in which it is started. *)
Variable train_evaluate_model_from_config :
  gmap string string → JobConfig → result metrics.
Variable calc_cv_score :
  gmap string string → JobConfig → Z → result metric_map.

(** [train_pipe], run in a process whose environment is [environ];
    [t_start] and [t_end] are the two readings of [time()]. *)
Definition train_pipe (environ : gmap string string) (t_start t_end : Qc)
    (args : train_args) : gmap string string * result job_result :=
  let visible :=
    if gpu args then
      match gpu_ind args with
      | None => Raise ConfigError
      | Some ind => Ok (pretty ind)
      end
    else Ok ""%string in
  match visible with
  | Raise e => (environ, Raise e)
  | Ok v =>
      let environ := <[CUDA_VISIBLE_DEVICES := v]> environ in
      let pipe_start := t_start in
      let res : job_result := {[ "pipe_conf"%string := VConfig (pipe_config args) ]} in
      let trained :=
        if arg_cross_validation args then
          cv_score ← calc_cv_score environ (pipe_config args) (arg_k_fold args);
          Ok ({[ "test"%string := cv_score ]} : metrics)
        else train_evaluate_model_from_config environ (pipe_config args) in
      match trained with
      | Raise e => (environ, Raise e)
      | Ok results =>
          let res := <["results"%string := VMetrics results]> res in
          let res := <["pipe_time"%string := VFloat (t_end - pipe_start)%Qc]> res in
          (environ, Ok res)
      end
  end.

End Worker.

(** ** Round-robin GPU assignment *)

(** The body of the loop of [gpu_gen] at index [i]: the computed [j] is what
    the yielded tuple carries as [gpu_ind].  [len(self.available_gpu)]
    raises [TypeError] while the attribute is [None], and the floor division
    raises [ZeroDivisionError] when the list is empty. *)
Definition gpu_gen_item (self : PipelineManager) (i : nat) (pipe_conf : JobConfig)
  : result train_args :=
  match available_gpu self with
  | None => Raise TypeError
  | Some slots =>
      let n := len slots in
      if n =? 0 then Raise ZeroDivisionError
      else
        let j := Z.of_nat i - (Z.of_nat i / n) * n in
        Ok (mkArgs pipe_conf (cross_validation self) (k_fold self) true (Some j))
  end.

Fixpoint gpu_gen_from (self : PipelineManager) (i : nat)
    (pipeline_generator : list JobConfig) : result (list train_args) :=
  match pipeline_generator with
  | [] => Ok []
  | pipe_conf :: rest =>
      x ← gpu_gen_item self i pipe_conf;
      xs ← gpu_gen_from self (S i) rest;
      Ok (x :: xs)
  end.

(** [[x for x in self.gpu_gen()]] *)
Definition gpu_gen (self : PipelineManager) (pipeline_generator : list JobConfig)
  : result (list train_args) :=
  gpu_gen_from self 0 pipeline_generator.

(** ** The checkpoint tree

    The directory [save_path] as a map from the names of its children to
    what they are.  A dataset directory holds shared files and one
    directory per pipeline; what a pipeline directory holds is kept flat.
    Dataset names are taken to be single path components. *)

Inductive content : Type :=
  | Blob (data : string)
  | ConfigJson (conf : JobConfig).

Inductive entry : Type :=
  | EFile (c : content)
  | EDir (files : gmap string content).

Inductive node : Type :=
  | File (c : content)
  | Dir (entries : gmap string entry).

Abbreviation tree := (gmap string node).

(** ['pipe_{}'.format(k)] *)
Definition pipe_name (k : option nat) : string :=
  "pipe_" +:+ match k with Some n => pretty n | None => "None" end.

(** [save_config]: [open(join(save_path, dataset_name, "pipe_{i+1}",
    "config.json"), 'w')] followed by [json.dump]. *)
Definition save_config (disk : tree) (conf : JobConfig) (dataset_name : string)
    (i : nat) : result tree :=
  match disk !! dataset_name with
  | None => Raise FileNotFoundError
  | Some (File _) => Raise NotADirectoryError
  | Some (Dir entries) =>
      match entries !! pipe_name (Some (i + 1)%nat) with
      | None => Raise FileNotFoundError
      | Some (EFile _) => Raise NotADirectoryError
      | Some (EDir files) =>
          let files := <["config.json"%string := ConfigJson conf]> files in
          Ok (<[dataset_name :=
                  Dir (<[pipe_name (Some (i + 1)%nat) := EDir files]> entries)]> disk)
      end
  end.

(** ** The logger *)

(** Modelled from the spec: the class [Logger] of
    [deeppavlov/pipeline_manager/logger.py] is not part of the sources at
    hand.  "Writes one structured log record per result (dataset, pipeline
    summary, full metrics, elapsed time)": [get_pipe_log] followed by
    [write] appends the current per-pipeline attributes to the log. *)
Record pipe_log : Type := mkPipeLog {
  log_pipe_ind : nat;
  log_pipe_conf : list string;
  log_dataset : string;
  log_batch_size : option Z;
  log_pipe_time : Qc;
  log_pipe_res : metrics
}.

Record Logger : Type := mkLogger {
  experiment_info_metrics : option (list string);
  experiment_info_target_metric : option string;
  written : list pipe_log
}.

(** ** Aggregation *)

(** One value of [dataset_res]: [dict(best_score=..., best_ind=...)]. *)
Record best : Type := mkBest {
  best_score : Qc;
  best_ind : option nat
}.

(** What the loop of [update_logger] reads and writes: the manager (for
    [self.target_metric]), the logger, the checkpoint tree and the local
    [dataset_res]. *)
Record agg : Type := mkAgg {
  agg_self : PipelineManager;
  agg_logger : Logger;
  agg_disk : tree;
  dataset_res : gmap string best
}.

(** The score that the body compares: the target metric of the "test"
    split when the results have one, of the "valid" split otherwise. *)
Definition target_score (target : option string) (results : metrics) : result Qc :=
  tm ← match target with Some t => Ok t | None => Raise (KeyError "None") end;
  match results !! "test"%string with
  | Some split => getitem split tm
  | None => split ← getitem results "valid"; getitem split tm
  end.

(** Lines 239 to 251: the entry of the dataset is created on first sight,
    then replaced when the score is greater than the stored one. *)
Definition track_best (target : option string) (dataset_name : string) (i : nat)
    (results : metrics) (dataset_res : gmap string best)
  : result (gmap string best) :=
  let dataset_res :=
    match dataset_res !! dataset_name with
    | None => <[dataset_name := mkBest (-1)%Qc None]> dataset_res
    | Some _ => dataset_res
    end in
  score ← target_score target results;
  cur ← getitem dataset_res dataset_name;
  if bool_decide (best_score cur < score)%Qc
  then Ok (<[dataset_name := mkBest score (Some (i + 1)%nat)]> dataset_res)
  else Ok dataset_res.

(** The body of [for i, res in enumerate(res_list)]. *)
Definition update_logger_body (i : nat) (res : job_result) (st : agg) : result agg :=
  pipe ← getitem res "pipe_conf" ≫= as_config;
  results ← getitem res "results" ≫= as_metrics;
  let dataset_name := data_path pipe in
  '(self, logger) ←
    (if (i =? 0)%nat then
       tm ← match target_metric (agg_self st) with
            | Some t => Ok t
            | None => match train_metrics pipe with
                      | m :: _ => Ok m
                      | [] => Raise IndexError
                      end
            end;
       Ok (set_target_metric (Some tm) (agg_self st),
           mkLogger (Some (train_metrics pipe)) (Some tm) (written (agg_logger st)))
     else Ok (agg_self st, agg_logger st));
  pipe_time ← getitem res "pipe_time" ≫= as_float;
  let record :=
    mkPipeLog (i + 1)%nat (chainer_pipe pipe) dataset_name
      (train_batch_size pipe) pipe_time results in
  let logger :=
    mkLogger (experiment_info_metrics logger)
      (experiment_info_target_metric logger) (written logger ++ [record]) in
  disk ← (if cross_validation self then Ok (agg_disk st)
          else save_config (agg_disk st) pipe dataset_name i);
  dataset_res ← (if save_best self
                 then track_best (target_metric self) dataset_name i results
                        (dataset_res st)
                 else Ok (dataset_res st));
  Ok (mkAgg self logger disk dataset_res).

(** The loop itself; an element of [res_list] that is a failed job raises
    when the iteration reaches it. *)
Fixpoint update_logger_loop (i : nat) (res_list : list (result job_result))
    (st : agg) : result agg :=
  match res_list with
  | [] => Ok st
  | r :: rest =>
      res ← r;
      st ← update_logger_body i res st;
      update_logger_loop (S i) rest st
  end.

Definition update_logger (self : PipelineManager) (logger : Logger) (disk : tree)
    (res_list : list (result job_result)) : result agg :=
  update_logger_loop 0 res_list (mkAgg self logger disk ∅).

(** ** Retention of the best checkpoint

    File-system calls act on the tree and either finish or raise, leaving
    the tree as it is at that point: a computation is a pair of the tree it
    leaves and the exception, if any. *)

Abbreviation fs_outcome := (tree * option exn)%type.

Definition isdir (disk : tree) (d : string) : bool :=
  match disk !! d with Some (Dir _) => true | _ => false end.

(** [os.path.isfile(join(d, f))] and [os.path.isdir(join(d, f))] *)
Definition isfile_in (disk : tree) (d f : string) : bool :=
  match disk !! d with
  | Some (Dir entries) =>
      match entries !! f with Some (EFile _) => true | _ => false end
  | _ => false
  end.

Definition isdir_in (disk : tree) (d f : string) : bool :=
  match disk !! d with
  | Some (Dir entries) =>
      match entries !! f with Some (EDir _) => true | _ => false end
  | _ => false
  end.

(** [os.makedirs(d)] *)
Definition makedirs (disk : tree) (d : string) : fs_outcome :=
  match disk !! d with
  | None => (<[d := Dir ∅]> disk, None)
  | Some _ => (disk, Some FileExistsError)
  end.

(** [os.listdir(d)]; the order is the one of the map's enumeration. *)
Definition listdir (disk : tree) (d : string) : result (list string) :=
  match disk !! d with
  | None => Raise FileNotFoundError
  | Some (File _) => Raise NotADirectoryError
  | Some (Dir entries) => Ok ((map_to_list entries).*1)
  end.

(** [rmtree(join(d, f))] and [rmtree(d)] *)
Definition rmtree_in (disk : tree) (d f : string) : fs_outcome :=
  match disk !! d with
  | Some (Dir entries) =>
      match entries !! f with
      | Some (EDir _) => (<[d := Dir (delete f entries)]> disk, None)
      | Some (EFile _) => (disk, Some NotADirectoryError)
      | None => (disk, Some FileNotFoundError)
      end
  | Some (File _) => (disk, Some NotADirectoryError)
  | None => (disk, Some FileNotFoundError)
  end.

Definition rmtree (disk : tree) (d : string) : fs_outcome :=
  match disk !! d with
  | Some (Dir _) => (delete d disk, None)
  | Some (File _) => (disk, Some NotADirectoryError)
  | None => (disk, Some FileNotFoundError)
  end.

(** [shutil.move(join(source, f), dest1)] for a directory [dest1]: the
    target is [dest1/f], and an existing target is an error.  The loop of
    [run] calls it only after [dest1] has been made a directory; for a
    [dest1] that is none the call is reported as [FileNotFoundError]. *)
Definition shutil_move (disk : tree) (source f dest1 : string) : fs_outcome :=
  match disk !! source, disk !! dest1 with
  | Some (Dir src), Some (Dir dst) =>
      match src !! f with
      | None => (disk, Some FileNotFoundError)
      | Some e =>
          match dst !! f with
          | Some _ => (disk, Some ShutilError)
          | None =>
              (<[dest1 := Dir (<[f := e]> dst)]>
                 (<[source := Dir (delete f src)]> disk), None)
          end
      end
  | _, _ => (disk, Some FileNotFoundError)
  end.

(** The body of [for f in files]. *)
Definition retain_file (best_ind : option nat) (source dest1 f : string)
    (disk : tree) : fs_outcome :=
  if negb (String.prefix "pipe" f) && negb (isfile_in disk dest1 f)
  then shutil_move disk source f dest1
  else if bool_decide (f = pipe_name best_ind) then
    if isdir_in disk dest1 f then
      match rmtree_in disk dest1 f with
      | (disk, None) => shutil_move disk source f dest1
      | raised => raised
      end
    else shutil_move disk source f dest1
  else (disk, None).

Fixpoint retain_files (best_ind : option nat) (source dest1 : string)
    (files : list string) (disk : tree) : fs_outcome :=
  match files with
  | [] => (disk, None)
  | f :: rest =>
      match retain_file best_ind source dest1 f disk with
      | (disk, None) => retain_files best_ind source dest1 rest disk
      | raised => raised
      end
  end.

Definition best_dir (name : string) : string := name +:+ "_best_pipe".

(** The body of [for name in dataset_res.keys()]. *)
Definition retain_dataset (name : string) (b : best) (disk : tree) : fs_outcome :=
  let source := name in
  let dest1 := best_dir name in
  match (if isdir disk dest1 then (disk, None) else makedirs disk dest1) with
  | (disk, None) =>
      match listdir disk source with
      | Raise e => (disk, Some e)
      | Ok files =>
          match retain_files (best_ind b) source dest1 files disk with
          | (disk, None) => rmtree disk name
          | raised => raised
          end
      end
  | raised => raised
  end.

Fixpoint retain_datasets (l : list (string * best)) (disk : tree) : fs_outcome :=
  match l with
  | [] => (disk, None)
  | (name, b) :: rest =>
      match retain_dataset name b disk with
      | (disk, None) => retain_datasets rest disk
      | raised => raised
      end
  end.

(** [if self.save_best: for name in dataset_res.keys(): ...]; the datasets
    are visited in the map's enumeration order. *)
Definition retain (self : PipelineManager) (dataset_res : gmap string best)
    (disk : tree) : fs_outcome :=
  if save_best self then retain_datasets (map_to_list dataset_res) disk
  else (disk, None).

(** ** The run *)

(** What a pool process is when it picks up a job: its environment and the
    two clock readings around the training. *)
Record process : Type := mkProcess {
  environ : gmap string string;
  time_before : Qc;
  time_after : Qc
}.

(** How a call ends: it returns or raises, or it never comes back. *)
Inductive ending (A : Type) : Type :=
  | Ends (r : result A)
  | Hangs.
Arguments Ends {A} r.
Arguments Hangs {A}.

(** Whether the call has come back without an exception. *)
Definition returns {A} (o : ending A) : bool :=
  match o with Ends r => is_Ok r | Hangs => false end.

Record run_report : Type := mkReport {
  submitted : list train_args;
  outcome : ending (gmap string best * fs_outcome)
}.

Section Run.

Variable cpu_count : Z.
Variable train_evaluate_model_from_config :
  gmap string string → JobConfig → result metrics.
Variable calc_cv_score :
  gmap string string → JobConfig → Z → result metric_map.

(** The pool sends a failed job's exception to the parent process pickled.
    [rebuilds e] tells whether the parent can build the exception [e] again
    from what it receives; that depends on the exception's class, which is
    defined outside this module.  (A class whose constructor requires an
    argument that it does not pass on to [Exception], as [ConfigError] of
    [deeppavlov.core.common.errors] does with its message, is not
    rebuilt.) *)
Variable rebuilds : exn → bool.

(** [Pool(processes)]: [None] means as many processes as the host has
    processors, fewer than one is refused. *)
Definition Pool (processes : option Z) : result Z :=
  match processes with
  | None => Ok cpu_count
  | Some n => if n <? 1 then Raise ValueError else Ok n
  end.

(** [workers.imap_unordered(self.train_pipe, tasks)]: what the worker
    processes send back, in the order in which the jobs complete; a failed
    job sends its exception.  That order, [completion], lists the
    submission indices as the pool's timing decides; [proc k] is the
    process that runs the job submitted at index [k].  Whether the parent
    gets to read what was sent is decided by [workers_join]. *)
Definition imap_unordered (proc : nat → process) (tasks : list train_args)
    (completion : list nat) : list (result job_result) :=
  omap (λ k,
          (λ args,
             (train_pipe train_evaluate_model_from_config calc_cv_score
                (environ (proc k)) (time_before (proc k))
                (time_after (proc k)) args).2) <$> tasks !! k)
       completion.

(** [workers.close(); workers.join()], which [run] calls before it reads
    any result: [join] returns once every result has reached the parent.
    The pool's result handler stops at the first failure that it cannot
    rebuild; the results still outstanding are then never delivered and
    [join] does not return.  [true] when [join] returns. *)
Definition workers_join (pipes_results : list (result job_result)) : bool :=
  forallb (λ r, match r with Ok _ => true | Raise e => rebuilds e end)
    pipes_results.

(** [run], from the creation of the pool to the end of the retention.
    [pipeline_generator] is what [PipeGen] enumerates and [disk] the
    checkpoint tree as the training leaves it (the pool is joined before
    the results are read).  The bookkeeping of the log around the loop
    (number of pipes, total time, saving) and the plotting at the end are
    left out.  The report keeps the tasks handed to the pool. *)
Definition run (self : PipelineManager) (logger : Logger)
    (pipeline_generator : list JobConfig) (proc : nat → process)
    (completion : list nat) (disk : tree) : run_report :=
  match Pool (max_num_workers self) with
  | Raise e => mkReport [] (Ends (Raise e))
  | Ok _ =>
      let tasks :=
        match available_gpu self with
        | None =>
            Ok ((λ x, mkArgs x (cross_validation self) (k_fold self) false None)
                  <$> pipeline_generator)
        | Some _ => gpu_gen self pipeline_generator
        end in
      match tasks with
      | Raise e => mkReport [] (Ends (Raise e))
      | Ok tasks =>
          let pipes_results := imap_unordered proc tasks completion in
          mkReport tasks
            (if workers_join pipes_results then
               Ends (st ← update_logger self logger disk pipes_results;
                     Ok (dataset_res st,
                         retain (agg_self st) (dataset_res st) (agg_disk st)))
             else Hangs)
      end
  end.

End Run.

(** [PipelineManager(...).run()]: the construction, then the run when the
    construction has not raised. *)
Definition experiment (cpu_count get_num_gpu : Z)
    (get_available_gpus : option Z → list Z) (check_gpu_available : Z → bool)
    (int_times_07 : Z → Z)
    (train_evaluate_model_from_config : gmap string string → JobConfig → result metrics)
    (calc_cv_score : gmap string string → JobConfig → Z → result metric_map)
    (rebuilds : exn → bool) (args : PipelineManager) (logger : Logger)
    (pipeline_generator : list JobConfig) (proc : nat → process)
    (completion : list nat) (disk : tree) : run_report :=
  match init cpu_count get_num_gpu get_available_gpus check_gpu_available
          int_times_07 args with
  | (_, Raise e) => mkReport [] (Ends (Raise e))
  | (_, Ok self) =>
      run cpu_count train_evaluate_model_from_config calc_cv_score rebuilds
        self logger pipeline_generator proc completion disk
  end.

(** ** Specification vocabulary for the aggregation *)

(** The reading of the target metric in the words of the description:
    from the "test" split when the results have one, else from "valid". *)
Inductive reads_target (tm : string) (m : metrics) (s : Qc) : Prop :=
  | reads_test split :
      m !! "test"%string = Some split → split !! tm = Some s →
      reads_target tm m s
  | reads_valid split :
      m !! "test"%string = None → m !! "valid"%string = Some split →
      split !! tm = Some s → reads_target tm m s.

(** What one result contributes: its dataset and its score. *)
Inductive observed (tm : string) (r : result job_result) (d : string) (s : Qc) : Prop :=
  | Observed res pipe m :
      r = Ok res →
      res !! "pipe_conf"%string = Some (VConfig pipe) →
      data_path pipe = d →
      res !! "results"%string = Some (VMetrics m) →
      reads_target tm m s →
      observed tm r d s.

(** The effect of lines 239 to 251 on [dataset_res], given the score. *)
Definition step_best (d : string) (i : nat) (s : Qc) (dr : gmap string best)
  : gmap string best :=
  let cur := default (mkBest (-1)%Qc None) (dr !! d) in
  if bool_decide (best_score cur < s)%Qc
  then <[d := mkBest s (Some (i + 1)%nat)]> dr
  else <[d := cur]> dr.

Fixpoint fold_best (i : nat) (obs : list (string * Qc)) (dr : gmap string best)
  : gmap string best :=
  match obs with
  | [] => dr
  | (d, s) :: rest => fold_best (S i) rest (step_best d i s dr)
  end.

(** The target metric that the first result fixes. *)
Definition fixes_target (given : option string) (pipe : JobConfig) (tm : string) : Prop :=
  match given with
  | Some t => tm = t
  | None => head (train_metrics pipe) = Some tm
  end.

(** ** What the fold records

    [tracks pre dr]: [dr] has an entry exactly for the datasets seen in
    [pre]; the entry's score bounds every score of the dataset; and its
    index, when there is one, is one more than the position of the first
    observation that reaches the recorded score. *)
Definition tracks (pre : list (string * Qc)) (dr : gmap string best) : Prop :=
  ∀ d,
    match dr !! d with
    | None => ∀ j s, pre !! j ≠ Some (d, s)
    | Some e =>
        (∃ j s, pre !! j = Some (d, s)) ∧
        (∀ j s, pre !! j = Some (d, s) → (s ≤ best_score e)%Qc) ∧
        match best_ind e with
        | None => best_score e = (-1)%Qc
        | Some k =>
            ∃ j, k = S j ∧ pre !! j = Some (d, best_score e) ∧
                 (-1 < best_score e)%Qc ∧
                 ∀ j' s, (j' < j)%nat → pre !! j' = Some (d, s) →
                         (s < best_score e)%Qc
        end
    end.

(** The observation of a result, computed. *)
Definition observe (tm : string) (r : result job_result) : option (string * Qc) :=
  match r with
  | Ok res =>
      match res !! "pipe_conf"%string, res !! "results"%string with
      | Some (VConfig pipe), Some (VMetrics m) =>
          match target_score (Some tm) m with
          | Ok s => Some (data_path pipe, s)
          | Raise _ => None
          end
      | _, _ => None
      end
  | Raise _ => None
  end.

(** Whether every result of the dataset [d] in [rs] scores at most [bound]. *)
Definition scores_at_most (tm : string) (d : string) (bound : Qc)
    (rs : list (result job_result)) : bool :=
  forallb (λ r, match observe tm r with
                | Some (d', s) =>
                    if decide (d' = d) then bool_decide (s ≤ bound)%Qc else true
                | None => true
                end) rs.

(** What an entry [e] of [dataset_res] says about the ingested sequence
    [rs], for the dataset [d]: no result of [d] scores higher; without an
    index the score is still the initial -1; with the index [k] the result
    ingested at position [k - 1] is the first of [d] to reach the recorded
    score, which is above -1. *)
Definition records_best (tm : string) (rs : list (result job_result))
    (d : string) (e : best) : Prop :=
  (∀ j r s, rs !! j = Some r → observed tm r d s → (s ≤ best_score e)%Qc) ∧
  match best_ind e with
  | None => best_score e = (-1)%Qc
  | Some k =>
      ∃ j r, k = S j ∧ rs !! j = Some r ∧ observed tm r d (best_score e) ∧
             (-1 < best_score e)%Qc ∧
             ∀ j' r' s, (j' < j)%nat → rs !! j' = Some r' →
                        observed tm r' d s → (s < best_score e)%Qc
  end.

(** ** Specification vocabulary for the retention *)

(** Whether the loop of the retention moves the entry [f] of the working
    directory, given the entries [dst] that the best directory had: a name
    that starts with "pipe" only when it is the best pipeline's, any other
    name unless the best directory has a regular file of that name. *)
Definition kept (best_ind : option nat) (dst : gmap string entry) (f : string) : bool :=
  if String.prefix "pipe" f then bool_decide (f = pipe_name best_ind)
  else match dst !! f with Some (EFile _) => false | _ => true end.

(** The moves that do not raise: at the target of a name that does not
    start with "pipe" there is no directory, and at the target of the best
    pipeline's name there is no regular file. *)
Definition safe_entry (best_ind : option nat) (dst : gmap string entry)
    (f : string) : Prop :=
  if String.prefix "pipe" f
  then f = pipe_name best_ind → ∀ c, dst !! f ≠ Some (EFile c)
  else ∀ fs, dst !! f ≠ Some (EDir fs).

(** The entries of the best directory before the retention. *)
Definition best_entries (disk : tree) (name : string) : gmap string entry :=
  match disk !! best_dir name with
  | Some (Dir dst) => dst
  | _ => ∅
  end.

(** ** Example inputs *)

Definition score (a : Z) (b : positive) : Qc := Q2Qc (a # b)%Q.

(** The [k]-th configuration of a dataset; the batch size tells the
    configurations apart. *)
Definition example_config (dataset : string) (k : Z) : JobConfig :=
  mkConfig dataset ["accuracy"; "f1"]%string (Some k)
    ["tokenizer"; "classifier"]%string.

(** A trainer that reports, on the "test" split, the accuracy that [scores]
    gives for the configuration. *)
Definition example_trainer (scores : Z → Qc)
  : gmap string string → JobConfig → result metrics :=
  λ _ c, Ok {[ "test"%string :=
                 {[ "accuracy"%string := scores (default 0 (train_batch_size c)) ]} ]}.

Definition example_cv : gmap string string → JobConfig → Z → result metric_map :=
  λ _ _ _, Ok ∅.

(** Scores 0.5, 0.8 and 0.3 for the submission indices 0, 1 and 2. *)
Definition scores_A (k : Z) : Qc :=
  if k =? 0 then score 5 10 else if k =? 1 then score 8 10 else score 3 10.

(** Scores -1, -2 and -1: none above the initial best score. *)
Definition scores_low (k : Z) : Qc :=
  if k =? 1 then score (-2) 1 else score (-1) 1.

Definition example_manager : PipelineManager :=
  mkManager false 5 true None true false None (Some 4) (Some 4) None.

Definition example_process : nat → process :=
  λ _, mkProcess ∅ (score 0 1) (score 1 1).

Definition example_logger : Logger := mkLogger None None [].

(** The exceptions that the parent process can rebuild: all but
    [ConfigError]. *)
Definition example_rebuilds (e : exn) : bool :=
  match e with ConfigError => false | _ => true end.

Definition example_disk : tree :=
  {[ "A"%string :=
       Dir (list_to_map
              [("pipe_1"%string, EDir {[ "model.ckpt"%string := Blob "w1" ]});
               ("pipe_2"%string, EDir {[ "model.ckpt"%string := Blob "w2" ]});
               ("pipe_3"%string, EDir {[ "model.ckpt"%string := Blob "w3" ]});
               ("vocab.dict"%string, EFile (Blob "new vocabulary"))]) ]}.

Definition jobs_A : list JobConfig :=
  [example_config "A" 0; example_config "A" 1; example_config "A" 2].

(** The scenario of dataset "A", with the results arriving in the order
    [completion]. *)
Definition scenario_A (completion : list nat) : run_report :=
  run 8 (example_trainer scores_A) example_cv example_rebuilds example_manager
    example_logger jobs_A example_process completion example_disk.

Definition scenario_low : run_report :=
  run 8 (example_trainer scores_low) example_cv example_rebuilds
    example_manager example_logger jobs_A example_process [0; 1; 2]%nat
    example_disk.

(** The results of the scenario as the pool hands them over, and the state
    of the aggregation once the result of the submission index 0 has been
    ingested first. *)
Definition results_A (completion : list nat) : list (result job_result) :=
  imap_unordered (example_trainer scores_A) example_cv example_process
    (submitted (scenario_A completion)) completion.

Definition first_result_A : job_result :=
  {[ "pipe_conf"%string := VConfig (example_config "A" 0);
     "results"%string :=
       VMetrics {[ "test"%string := {[ "accuracy"%string := score 5 10 ]} ]};
     "pipe_time"%string := VFloat (score 1 1 - score 0 1)%Qc ]}.

Definition state_after_first : agg :=
  mkAgg (set_target_metric (Some "accuracy"%string) example_manager)
    (mkLogger (Some ["accuracy"; "f1"]%string) (Some "accuracy"%string) [])
    example_disk
    {[ "A"%string := mkBest (score 5 10) (Some 1%nat) ]}.

Definition results_low : list (result job_result) :=
  imap_unordered (example_trainer scores_low) example_cv example_process
    (submitted scenario_low) [0; 1; 2]%nat.

Definition first_result_low : job_result :=
  {[ "pipe_conf"%string := VConfig (example_config "A" 0);
     "results"%string :=
       VMetrics {[ "test"%string := {[ "accuracy"%string := score (-1) 1 ]} ]};
     "pipe_time"%string := VFloat (score 1 1 - score 0 1)%Qc ]}.

(** The worker count that the planning goes by: the requested one, cut down
    to the number of processors. *)
Definition clamped (cpu_count w : Z) : Z := if cpu_count <? w then cpu_count else w.

(** A host with four processors and four GPUs, all idle; [int(n * 0.7)]
    is [7 * n / 10] on the processor counts used below. *)
Definition example_gpus (num_gpus : option Z) : list Z :=
  match num_gpus with
  | None => [0; 1; 2; 3]
  | Some n => take (Z.to_nat n) [0; 1; 2; 3]
  end.

Definition example_int_times_07 (n : Z) : Z := 7 * n / 10.

Definition example_plan (args : PipelineManager) : list printed * result PipelineManager :=
  init 4 4 example_gpus (λ _, true) example_int_times_07 args.

(** Constructor arguments: all GPUs, no worker count. *)
Definition args_all_gpus : PipelineManager :=
  mkManager false 5 true None true true None None None None.

(** Constructor arguments: all GPUs, [w] workers requested. *)
Definition args_all_gpus_workers (w : Z) : PipelineManager :=
  mkManager false 5 true None true true None (Some w) None None.

(** A probe that finds two GPUs idle, the devices 1 and 3. *)
Definition example_gpus_two_idle (num_gpus : option Z) : list Z :=
  match num_gpus with
  | None => [1; 3]
  | Some n => take (Z.to_nat n) [1; 3]
  end.

Definition gpus_1_3_idle (ind : Z) : bool := (ind =? 1) || (ind =? 3).

(** Constructor arguments: both GPU modes, with and without
    [multiprocessing]. *)
Definition args_both_modes (multiprocessing : bool) : PipelineManager :=
  mkManager false 5 true None multiprocessing true (Some [0; 1]) (Some 4) None None.

(** A manager whose idle GPUs are the devices 2 and 5. *)
Definition manager_gpus_2_5 : PipelineManager :=
  mkManager false 5 true None true false (Some [2; 5]) (Some 2) (Some 2)
    (Some [2; 5]).

Definition jobs_4 : list JobConfig :=
  [example_config "A" 0; example_config "A" 1; example_config "A" 2;
   example_config "A" 3].


(** A checkpoint tree after a second experiment on dataset "A": the best
    directory of the first experiment is still there, with its vocabulary
    and its pipeline. *)
Definition example_disk_rerun : tree :=
  <[ "A_best_pipe"%string :=
       Dir (list_to_map
              [("pipe_1"%string, EDir {[ "model.ckpt"%string := Blob "old w1" ]});
               ("vocab.dict"%string, EFile (Blob "old vocabulary"))]) ]>
    example_disk.

Definition recorded (r : run_report) (d : string) : option best :=
  match outcome r with
  | Ends (Ok (dr, _)) => dr !! d
  | _ => None
  end.

(** The entry [f] of the best directory of the dataset [name] when the run
    [r] has returned. *)
Definition retained (r : run_report) (name f : string) : option entry :=
  match outcome r with
  | Ends (Ok (_, (disk, None))) =>
      match disk !! best_dir name with
      | Some (Dir dst) => dst !! f
      | _ => None
      end
  | _ => None
  end.

(** ** Further vocabulary and example inputs *)

(** The indices of an explicit GPU list that the probe reports idle, and
    those it reports busy, in the order of the list. *)
Definition idle_of (check_gpu_available : Z → bool) (inds : list Z) : list Z :=
  filter (λ ind, check_gpu_available ind = true) inds.

Definition busy_of (check_gpu_available : Z → bool) (inds : list Z) : list Z :=
  filter (λ ind, check_gpu_available ind = false) inds.

(** What the planning prints when it cuts the requested worker count. *)
Definition clamp_warning (cpu_count : Z) (requested : option Z) : list printed :=
  match requested with
  | Some w => if cpu_count <? w then [WarnMaxNumWorkers w cpu_count] else []
  | None => []
  end.

(** Constructor arguments: the explicit GPU list [0; 3], four workers
    requested. *)
Definition args_explicit_gpus : PipelineManager :=
  mkManager false 5 true None true false (Some [0; 3]) (Some 4) None None.

(** A probe that finds only the device 0 idle. *)
Definition only_gpu_0_idle (ind : Z) : bool := ind =? 0.

(** Constructor arguments: no GPU mode, sixteen workers requested. *)
Definition args_cpu_only : PipelineManager :=
  mkManager false 5 true None true false None (Some 16) None None.

(** What is stored at [save_path/<dataset>/pipe_<k>/config.json]. *)
Definition stored_config (disk : tree) (dataset : string) (k : nat) : option content :=
  match disk !! dataset with
  | Some (Dir entries) =>
      match entries !! pipe_name (Some k) with
      | Some (EDir files) => files !! "config.json"%string
      | _ => None
      end
  | _ => None
  end.

(** Whether [save_path/<dataset>/pipe_<k>] is a directory. *)
Definition is_pipe_dir (disk : tree) (dataset : string) (k : nat) : bool :=
  isdir_in disk dataset (pipe_name (Some k)).

(** A checkpoint tree where the best directory of dataset "A" has a
    directory under the name of the vocabulary file. *)
Definition example_disk_obstacle : tree :=
  <[ "A_best_pipe"%string :=
       Dir {[ "vocab.dict"%string := EDir ∅ ]} ]> example_disk.

(** ** The test run *)

(** The entries of [config['train']] that the test reads; a key that is
    not there is [None]. *)
Record TrainSection : Type := mkTrain {
  test_best : option bool;
  validate_best : option bool;
  val_every_n_epochs : option Z
}.

(** A configuration as the test reads it: the data path, and the train
    section when [config.get('train', None)] is a non-empty dictionary. *)
Record TestConfig : Type := mkTestConfig {
  test_data_path : string;
  train_section : option TrainSection
}.

(** [self.dataset_composition], with its keys train, valid and test. *)
Record dataset_composition : Type := mkComposition {
  comp_train : bool;
  comp_valid : bool;
  comp_test : bool
}.

Section TestRun.

Context {sample : Type}.

(** A data iterator: whether it is a [DataFittingIterator], its [data]
    dictionary and its [train], [valid] and [test] attributes. *)
Record DataIterator : Type := mkIterator {
  is_data_fitting : bool;
  iter_data : gmap string (list sample);
  iter_train : list sample;
  iter_valid : list sample;
  iter_test : list sample
}.

(** The readers and the training of [core.commands.train], outside this
    module. *)
Variable read_data_by_config : TestConfig → gmap string (list sample).
Variable get_iterator_from_config :
  TestConfig → gmap string (list sample) → DataIterator.
Variable train_on_iterator : TestConfig → DataIterator → result unit.

(** [len(data.get(dtype, []))] *)
Definition split_len (data : gmap string (list sample)) (dtype : string) : Z :=
  len (default [] (data !! dtype)).

(** The first dataset sets the composition; each later one is checked
    against it. *)
Definition check_composition (comp : dataset_composition) (i : nat)
    (data : gmap string (list sample)) : result dataset_composition :=
  if (i =? 0)%nat then
    Ok (mkComposition
          (if negb (split_len data "train" =? 0) then true else comp_train comp)
          (if negb (split_len data "valid" =? 0) then true else comp_valid comp)
          (if negb (split_len data "test" =? 0) then true else comp_test comp))
  else if (split_len data "train" =? 0) && comp_train comp then Raise ConfigError
  else if (split_len data "valid" =? 0) && comp_valid comp then Raise ConfigError
  else if (split_len data "test" =? 0) && comp_test comp then Raise ConfigError
  else Ok comp.

(** The checks on the parts that the training options need. *)
Definition check_parts (config : TestConfig) (iterator : DataIterator)
  : result unit :=
  match train_section config with
  | Some tr =>
      tb ← match test_best tr with
           | Some b => Ok b
           | None => Raise (KeyError "test_best")
           end;
      _ ← (if (tb : bool) then
             part ← getitem (iter_data iterator) "test";
             if len part =? 0 then Raise ConfigError else Ok tt
           else Ok tt);
      vb ← match validate_best tr with
           | Some b => Ok b
           | None => Raise (KeyError "validate_best")
           end;
      if (vb : bool) || (0 <? default 0 (val_every_n_epochs tr)) then
        part ← getitem (iter_data iterator) "valid";
        if len part =? 0 then Raise ConfigError else Ok tt
      else Ok tt
  | None =>
      part ← getitem (iter_data iterator) "test";
      if len part =? 0 then Raise ConfigError else Ok tt
  end.

(** [copy(part)] when the part has at most [limit] elements, else
    [copy(part[:keep])]. *)
Definition tiny (part : list sample) (limit : Z) (keep : nat) : list sample :=
  if len part <=? limit then part else take keep part.

Definition test_dataset_reader_and_iterator (comp : dataset_composition)
    (config : TestConfig) (i : nat) : result (dataset_composition * DataIterator) :=
  let data := read_data_by_config config in
  comp ← check_composition comp i data;
  let iterator := get_iterator_from_config config data in
  if is_data_fitting iterator then Raise ConfigError
  else
    _ ← check_parts config iterator;
    train ← getitem (iter_data iterator) "train";
    let tiny_train := tiny train 100 10 in
    valid ← getitem (iter_data iterator) "valid";
    let tiny_valid := tiny valid 20 5 in
    test ← getitem (iter_data iterator) "test";
    let tiny_test := tiny test 20 5 in
    Ok (comp,
        mkIterator (is_data_fitting iterator)
          (<["train"%string := tiny_train]>
             (<["valid"%string := tiny_valid]>
                (<["test"%string := tiny_test]>
                   {[ "all"%string := tiny_train ++ tiny_valid ++ tiny_test ]})))
          tiny_train tiny_valid tiny_test).

(** The loop of [test]: every configuration is read, checked and trained
    on its tiny data. *)
Fixpoint test_loop (i : nat) (pipes : list TestConfig) (comp : dataset_composition)
  : result dataset_composition :=
  match pipes with
  | [] => Ok comp
  | pipe :: rest =>
      '(comp, data_iterator_i) ← test_dataset_reader_and_iterator comp pipe i;
      _ ← train_on_iterator pipe data_iterator_i;
      test_loop (S i) rest comp
  end.

(** [test], with the composition that [__init__] sets before it; [disk] is
    the checkpoint tree as the trainings leave it, from which the
    directory "tmp" is removed. *)
Definition test (pipes : list TestConfig) (disk : tree)
  : result (dataset_composition * tree) :=
  comp ← test_loop 0 pipes (mkComposition false false false);
  match rmtree disk "tmp" with
  | (disk, None) => Ok (comp, disk)
  | (_, Some e) => Raise e
  end.

End TestRun.

(** Readers for the examples: the data of a configuration is the number of
    samples that its path spells out in each part. *)
Definition example_parts (train valid test : nat) : gmap string (list nat) :=
  {[ "train"%string := seq 0 train; "valid"%string := seq 0 valid;
     "test"%string := seq 0 test ]}.

Definition example_reader (config : TestConfig) : gmap string (list nat) :=
  if String.eqb (test_data_path config) "big" then example_parts 150 30 8
  else if String.eqb (test_data_path config) "no_valid" then example_parts 40 0 8
  else example_parts 40 10 8.

Definition example_iterator (config : TestConfig) (data : gmap string (list nat))
  : DataIterator :=
  mkIterator false data [] [] [].

Definition example_test_config (path : string) : TestConfig :=
  mkTestConfig path (Some (mkTrain (Some true) (Some false) None)).

(** A dataset has every part that the composition records. *)
Definition covers {sample : Type} (comp : dataset_composition)
    (data : gmap string (list sample)) : Prop :=
  (comp_train comp = true → split_len data "train" ≠ 0) ∧
  (comp_valid comp = true → split_len data "valid" ≠ 0) ∧
  (comp_test comp = true → split_len data "test" ≠ 0).

(** The parts of a dataset that are not empty. *)
Definition composition_of {sample : Type} (data : gmap string (list sample))
  : dataset_composition :=
  mkComposition (negb (split_len data "train" =? 0))
    (negb (split_len data "valid" =? 0)) (negb (split_len data "test" =? 0)).

(** A trainer that fails on the configuration with batch size 1. *)
Definition failing_trainer : gmap string string → JobConfig → result metrics :=
  λ environ c,
    if default 0 (train_batch_size c) =? 1 then Raise ConfigError
    else example_trainer scores_A environ c.

(** Constructor arguments: GPU settings given, [multiprocessing] off. *)
Definition args_multiprocessing_off : PipelineManager :=
  mkManager false 5 true None false true None (Some 2) None None.

(** * Properties *)

(** ** Order facts on scores *)

Lemma Qc_lt_le (x y : Qc) : (x < y → x ≤ y)%Qc.
Proof. apply Qclt_le_weak. Qed.

Lemma Qc_nlt_le (x y : Qc) : (¬ x < y → y ≤ x)%Qc.
Proof. apply Qcnot_lt_le. Qed.

Lemma Qc_le_lt_trans (x y z : Qc) : (x ≤ y → y < z → x < z)%Qc.
Proof. apply Qcle_lt_trans. Qed.

Lemma Qc_le_nlt (x y : Qc) : (x ≤ y → ¬ y < x)%Qc.
Proof. apply Qcle_not_lt. Qed.

Create HintDb score discriminated.
#[local] Hint Resolve Qc_lt_le Qc_nlt_le Qcle_refl : score.
#[local] Hint Resolve Qcle_trans Qc_le_lt_trans Qclt_trans : score.

(** ** The aggregation as a fold over observations *)


Lemma target_score_reads tm m s :
  target_score (Some tm) m = Ok s ↔ reads_target tm m s.
Proof.
  unfold target_score, getitem; cbn. split.
  - destruct (m !! "test"%string) as [split|] eqn:Ht.
    + destruct (split !! tm) eqn:Hs; intros [= <-]. by eapply reads_test.
    + destruct (m !! "valid"%string) as [split|] eqn:Hv; cbn; [|done].
      destruct (split !! tm) eqn:Hs; intros [= <-]. by eapply reads_valid.
  - intros [split Ht Hs|split Ht Hv Hs].
    + by rewrite Ht, Hs.
    + rewrite Ht, Hv; cbn. by rewrite Hs.
Qed.




Lemma track_best_step tm d i m dr dr' :
  track_best (Some tm) d i m dr = Ok dr' ↔
  ∃ s, reads_target tm m s ∧ dr' = step_best d i s dr.
Proof.
  unfold track_best, step_best. split.
  - destruct (target_score (Some tm) m) as [s|] eqn:Hs; cbn; [|done].
    apply target_score_reads in Hs. intros H. exists s. split; [done|].
    destruct (dr !! d) as [cur|] eqn:Hd; unfold getitem in H; cbn in *.
    + rewrite Hd in H; cbn in H. case_bool_decide; simplify_eq; [done|].
      by rewrite insert_id.
    + rewrite lookup_insert_eq in H; cbn in H.
      case_bool_decide; simplify_eq; [|done]. by rewrite insert_insert_eq.
  - intros (s & Hs & ->). apply target_score_reads in Hs. rewrite Hs; cbn.
    destruct (dr !! d) as [cur|] eqn:Hd; unfold getitem; cbn.
    + rewrite Hd; cbn. case_bool_decide; [done|]. by rewrite insert_id.
    + rewrite lookup_insert_eq; cbn.
      case_bool_decide; [|done]. by rewrite insert_insert_eq.
Qed.

(** Inversion of a bind in [result]. *)
Lemma bind_Ok {A B} (m : result A) (f : A → result B) b :
  m ≫= f = Ok b ↔ ∃ a, m = Ok a ∧ f a = Ok b.
Proof.
  destruct m as [a|e]; cbn; split; try done.
  - eauto.
  - by intros (a' & [= <-] & ?).
  - by intros (? & ? & ?).
Qed.

Lemma getitem_Ok {V} (d : gmap string V) k v : getitem d k = Ok v ↔ d !! k = Some v.
Proof. unfold getitem. destruct (d !! k); split; congruence. Qed.

Lemma as_config_Ok v c : as_config v = Ok c ↔ v = VConfig c.
Proof. destruct v; cbn; split; congruence. Qed.
Lemma as_metrics_Ok v m : as_metrics v = Ok m ↔ v = VMetrics m.
Proof. destruct v; cbn; split; congruence. Qed.
Lemma as_float_Ok v x : as_float v = Ok x ↔ v = VFloat x.
Proof. destruct v; cbn; split; congruence. Qed.


Lemma update_logger_body_inv i res st st' :
  update_logger_body i res st = Ok st' →
  ∃ pipe m,
    res !! "pipe_conf"%string = Some (VConfig pipe) ∧
    res !! "results"%string = Some (VMetrics m) ∧
    match i with
    | O => ∃ tm, fixes_target (target_metric (agg_self st)) pipe tm ∧
                 agg_self st' = set_target_metric (Some tm) (agg_self st) ∧
                 experiment_info_target_metric (agg_logger st') = Some tm
    | S _ => agg_self st' = agg_self st
    end ∧
    if save_best (agg_self st)
    then track_best (target_metric (agg_self st')) (data_path pipe) i m
           (dataset_res st) = Ok (dataset_res st')
    else dataset_res st' = dataset_res st.
Proof.
  unfold update_logger_body. intros H.
  apply bind_Ok in H as (pipe & Hpipe & H).
  apply bind_Ok in Hpipe as (v & Hv%getitem_Ok & ->%as_config_Ok).
  apply bind_Ok in H as (m & Hm & H).
  apply bind_Ok in Hm as (v & Hv'%getitem_Ok & ->%as_metrics_Ok).
  apply bind_Ok in H as ([self logger] & Hfix & H).
  apply bind_Ok in H as (pipe_time & _ & H).
  apply bind_Ok in H as (disk & _ & H).
  apply bind_Ok in H as (dr & Hdr & [= <-]); cbn.
  exists pipe, m. split; [done|]. split; [done|].
  destruct i as [|i]; cbn in Hfix.
  - apply bind_Ok in Hfix as (tm & Htm & [= <- <-]); cbn in *. split.
    + exists tm. split; [|done]. unfold fixes_target.
      destruct (target_metric (agg_self st)); [congruence|].
      destruct (train_metrics pipe); naive_solver.
    + destruct (save_best (agg_self st)); [done|congruence].
  - injection Hfix as <- <-. split; [done|].
    destruct (save_best (agg_self st)); [done|congruence].
Qed.

#[local] Arguments track_best : simpl never.
#[local] Arguments step_best : simpl never.

Lemma set_target_metric_save_best v self :
  save_best (set_target_metric v self) = save_best self.
Proof. done. Qed.

Lemma update_logger_loop_obs tm rs : ∀ i st st',
  save_best (agg_self st) = true →
  target_metric (agg_self st) = Some tm →
  update_logger_loop (S i) rs st = Ok st' →
  agg_self st' = agg_self st ∧
  ∃ obs, Forall2 (λ r o, observed tm r o.1 o.2) rs obs ∧
         dataset_res st' = fold_best (S i) obs (dataset_res st).
Proof.
  induction rs as [|r rs IH]; intros i st st' Hsb Htm H; cbn in H.
  - injection H as <-. split; [done|]. by exists [].
  - apply bind_Ok in H as (res & -> & H).
    apply bind_Ok in H as (st1 & Hbody & H).
    apply update_logger_body_inv in Hbody as (pipe & m & Hp & Hm & Hself & Hdr).
    rewrite Hsb, Hself, Htm in Hdr.
    apply track_best_step in Hdr as (s & Hs & Hdr).
    apply IH in H as (Hself' & obs & Hobs & Hfold); [|congruence..].
    split; [congruence|]. exists ((data_path pipe, s) :: obs). split.
    + constructor; [|done]. by econstructor.
    + cbn. by rewrite <-Hdr.
Qed.

Lemma update_logger_obs self logger disk r rs st :
  save_best self = true →
  update_logger self logger disk (r :: rs) = Ok st →
  ∃ res pipe tm obs,
    r = Ok res ∧ res !! "pipe_conf"%string = Some (VConfig pipe) ∧
    fixes_target (target_metric self) pipe tm ∧
    agg_self st = set_target_metric (Some tm) self ∧
    Forall2 (λ r o, observed tm r o.1 o.2) (r :: rs) obs ∧
    dataset_res st = fold_best 0 obs ∅.
Proof.
  unfold update_logger. intros Hsb H; cbn in H.
  apply bind_Ok in H as (res & -> & H).
  apply bind_Ok in H as (st1 & Hbody & H).
  apply update_logger_body_inv in Hbody
    as (pipe & m & Hp & Hm & (tm & Hfix & Hself & _) & Hdr).
  cbn in Hfix, Hself, Hdr. rewrite Hsb, Hself in Hdr. cbn in Hdr.
  apply track_best_step in Hdr as (s & Hs & Hdr).
  apply (update_logger_loop_obs tm) in H as (Hself' & obs & Hobs & Hfold);
    [|by rewrite Hself..].
  exists res, pipe, tm, ((data_path pipe, s) :: obs).
  repeat split; [done..|congruence| |].
  - constructor; [|done]. by econstructor.
  - cbn. by rewrite <-Hdr.
Qed.


Lemma tracks_nil : tracks [] ∅.
Proof. intros d. rewrite lookup_empty. by intros [|?] ?. Qed.

Lemma lookup_snoc_Some {A} (l : list A) (x y : A) j :
  (l ++ [x]) !! j = Some y ↔
  l !! j = Some y ∨ (j = length l ∧ y = x).
Proof.
  rewrite lookup_app_Some, list_lookup_singleton_Some. split.
  - intros [?|(? & ? & ?)]; [by left|right]. split; [lia|done].
  - intros [?|[-> ->]]; [by left|right]. split; [lia|]. split; [lia|done].
Qed.

Lemma tracks_step pre dr d s :
  tracks pre dr → tracks (pre ++ [(d, s)]) (step_best d (length pre) s dr).
Proof.
  intros Hinv d'. specialize (Hinv d'). unfold step_best.
  destruct (decide (d' = d)) as [->|Hne].
  2:{ assert (∀ j s', (pre ++ [(d, s)]) !! j = Some (d', s') ↔
                      pre !! j = Some (d', s')) as Hl.
      { intros j s'. rewrite lookup_snoc_Some.
        split; [intros [?|[_ [= ? _]]]; [done|congruence]|by left]. }
      case_bool_decide; (rewrite lookup_insert_ne by done);
        destruct (dr !! d') as [e|]; try (intros j s'; rewrite Hl; apply Hinv);
        destruct Hinv as ((j & s' & Hj) & Hle & Hk);
        (split; [exists j, s'; by apply Hl|]);
        (split; [intros j' s''; rewrite Hl; apply Hle|]);
        (destruct (best_ind e) as [k|]; [|done]);
        destruct Hk as (j0 & -> & Hj0 & Hgt & Hfirst);
        exists j0; (split_and!; [done|by apply Hl|done|]);
        intros j' s'' ?; rewrite Hl; by apply Hfirst. }
  assert (∃ j s', (pre ++ [(d, s)]) !! j = Some (d, s')) as Hex.
  { exists (length pre), s. apply lookup_snoc_Some. by right. }
  case_bool_decide as Hlt; rewrite lookup_insert_eq; cbn.
  - (* the new score is recorded *)
    split; [done|]. split.
    + intros j s' [Hj|[_ [= ->]]]%lookup_snoc_Some; [|auto with score].
      destruct (dr !! d) as [e|]; [|by destruct (Hinv j s')]; cbn in Hlt.
      destruct Hinv as (_ & Hle & _). eauto using Hle with score.
    + exists (length pre). split; [lia|]. split.
      { apply lookup_snoc_Some. by right. }
      split.
      { destruct (dr !! d) as [e|]; cbn in Hlt; [|done].
        destruct Hinv as (_ & _ & Hk). destruct (best_ind e) as [k|].
        - destruct Hk as (? & _ & _ & Hgt & _). eauto with score.
        - by rewrite <-Hk. }
      intros j' s' Hj' [Hj|[-> _]]%lookup_snoc_Some; [|lia].
      destruct (dr !! d) as [e|]; [|by destruct (Hinv j' s')]; cbn in Hlt.
      destruct Hinv as (_ & Hle & _). eauto using Hle with score.
  - (* the stored entry stays *)
    split; [done|].
    destruct (dr !! d) as [e|]; cbn in *.
    + destruct Hinv as (_ & Hle & Hk). split.
      * intros j s' [Hj|[_ [= ->]]]%lookup_snoc_Some; eauto with score.
      * destruct (best_ind e) as [k|]; [|done].
        destruct Hk as (j0 & -> & Hj0 & Hgt & Hfirst).
        exists j0. split_and!; [done| |done|].
        { apply lookup_snoc_Some. by left. }
        intros j' s' Hj' [Hj|[-> _]]%lookup_snoc_Some; [eauto|].
        apply lookup_lt_Some in Hj0. lia.
    + split; [|done].
      intros j s' [Hj|[_ [= ->]]]%lookup_snoc_Some; [|auto with score].
      by destruct (Hinv j s').
Qed.

Lemma tracks_fold obs : ∀ pre dr,
  tracks pre dr → tracks (pre ++ obs) (fold_best (length pre) obs dr).
Proof.
  induction obs as [|[d s] obs IH]; intros pre dr Hinv; cbn.
  - by rewrite app_nil_r.
  - rewrite (assoc_L (++) pre [(d, s)] obs : pre ++ (d, s) :: obs = _).
    replace (S (length pre)) with (length (pre ++ [(d, s)]))
      by (rewrite length_app; cbn; lia).
    by apply IH, tracks_step.
Qed.

Lemma tracks_fold_0 obs : tracks obs (fold_best 0 obs ∅).
Proof. apply (tracks_fold obs [] ∅), tracks_nil. Qed.

(** ** From observations back to the ingested results *)

Lemma reads_target_fun tm m s s' :
  reads_target tm m s → reads_target tm m s' → s = s'.
Proof. intros [] []; congruence. Qed.

Lemma observed_fun tm r d s d' s' :
  observed tm r d s → observed tm r d' s' → d = d' ∧ s = s'.
Proof.
  intros [res pipe m -> Hp <- Hm Hs] [res' pipe' m' [= <-] Hp' <- Hm' Hs'].
  simplify_eq. split; [done|]. by eapply reads_target_fun.
Qed.

Section Observations.
Context (tm : string) (rs : list (result job_result)) (obs : list (string * Qc)).
Hypothesis Hobs : Forall2 (λ r o, observed tm r o.1 o.2) rs obs.

Lemma obs_of_result j r d s :
  rs !! j = Some r → observed tm r d s → obs !! j = Some (d, s).
Proof using Hobs.
  intros Hj Hr. destruct (Forall2_lookup_l _ _ _ _ _ Hobs Hj) as ([d' s'] & Ho & Hr').
  cbn in Hr'. by destruct (observed_fun _ _ _ _ _ _ Hr Hr') as [-> ->].
Qed.

Lemma result_of_obs j d s :
  obs !! j = Some (d, s) → ∃ r, rs !! j = Some r ∧ observed tm r d s.
Proof using Hobs.
  intros Hj. destruct (Forall2_lookup_r _ _ _ _ _ Hobs Hj) as (r & Hr & Ho).
  by exists r.
Qed.

Lemma tracks_records dr d e :
  tracks obs dr → dr !! d = Some e →
  records_best tm rs d e ∧ ∃ j r s, rs !! j = Some r ∧ observed tm r d s.
Proof using Hobs.
  intros Hinv He. specialize (Hinv d). rewrite He in Hinv.
  destruct Hinv as ((j & s & Hj) & Hle & Hk). split; [split|].
  - intros j' r s' Hr Ho. eapply Hle, obs_of_result; eauto.
  - destruct (best_ind e) as [k|]; [|done].
    destruct Hk as (j0 & -> & Hj0 & Hgt & Hfirst).
    destruct (result_of_obs _ _ _ Hj0) as (r & Hr & Ho).
    exists j0, r. split_and!; [done..|].
    intros j' r' s' Hlt Hr' Ho'. eapply Hfirst; [done|].
    eapply obs_of_result; eauto.
  - destruct (result_of_obs _ _ _ Hj) as (r & Hr & Ho). eauto.
Qed.

Lemma tracks_seen dr j r d s :
  tracks obs dr → rs !! j = Some r → observed tm r d s → is_Some (dr !! d).
Proof using Hobs.
  intros Hinv Hr Ho. specialize (Hinv d).
  destruct (dr !! d) as [e|]; [by eexists|].
  by destruct (Hinv j s); eapply obs_of_result.
Qed.

End Observations.

(** The entries of [dataset_res] at the end of [update_logger], in terms of
    the sequence that was ingested. *)
Lemma update_logger_records self logger disk rs st :
  save_best self = true →
  update_logger self logger disk rs = Ok st →
  (∀ d e, dataset_res st !! d = Some e →
     ∃ tm, target_metric (agg_self st) = Some tm ∧ records_best tm rs d e) ∧
  (∀ tm j r d s, target_metric (agg_self st) = Some tm →
     rs !! j = Some r → observed tm r d s → is_Some (dataset_res st !! d)).
Proof.
  intros Hsb H. destruct rs as [|r rs].
  { injection H as <-. cbn. split; [by intros d e; rewrite lookup_empty|].
    by intros tm [|j] r d s _ ?. }
  apply update_logger_obs in H
    as (res & pipe & tm & obs & -> & Hp & Hfix & Hself & Hobs & Hdr); [|done].
  rewrite Hself, Hdr. split.
  - intros d e He. exists tm. split; [done|].
    by eapply tracks_records; [done|apply tracks_fold_0|].
  - intros tm' j r d s [= <-] Hr Ho.
    eapply tracks_seen; [done|apply tracks_fold_0|done..].
Qed.

(** ** The run, inverted *)

Lemma run_Ok cpu te cv rb self logger gen proc completion disk dr fs :
  outcome (run cpu te cv rb self logger gen proc completion disk)
    = Ends (Ok (dr, fs)) →
  ∃ st,
    update_logger self logger disk
      (imap_unordered te cv proc
         (submitted (run cpu te cv rb self logger gen proc completion disk))
         completion) = Ok st ∧
    dr = dataset_res st ∧
    fs = retain (agg_self st) (dataset_res st) (agg_disk st).
Proof.
  unfold run. destruct (Pool cpu (max_num_workers self)); [|done].
  destruct (match available_gpu self with Some _ => _ | None => _ end)
    as [tasks|]; [|done].
  cbn. destruct (workers_join _ _); [|done].
  intros [= (st & Hst & [= <- <-])%bind_Ok]. by exists st.
Qed.

(** ** Claims on the aggregation *)

(** Ingestion in submission order: the result at position [j] is the one
    of the job submitted at index [j]. *)
Lemma imap_unordered_from te cv proc (tasks : list train_args) : ∀ pre,
  imap_unordered te cv proc (pre ++ tasks) (seq (length pre) (length tasks)) =
  imap (λ i args,
          (train_pipe te cv (environ (proc (length pre + i)%nat))
             (time_before (proc (length pre + i)%nat))
             (time_after (proc (length pre + i)%nat)) args).2) tasks.
Proof.
  unfold imap_unordered.
  induction tasks as [|a tasks IH]; intros pre; [done|]. cbn.
  rewrite lookup_app_r, Nat.sub_diag by done. cbn.
  rewrite Nat.add_0_r. f_equal.
  specialize (IH (pre ++ [a])). rewrite <-(assoc_L (++)) in IH. cbn in IH.
  rewrite length_app, Nat.add_1_r in IH. rewrite IH.
  apply imap_ext. intros i x _. cbn. by rewrite Nat.add_succ_r.
Qed.

Lemma imap_unordered_in_order te cv proc (tasks : list train_args) j :
  imap_unordered te cv proc tasks (seq 0 (length tasks)) !! j =
  (λ args, (train_pipe te cv (environ (proc j)) (time_before (proc j))
              (time_after (proc j)) args).2) <$> tasks !! j.
Proof.
  pose proof (imap_unordered_from te cv proc tasks []) as H. cbn in H.
  by rewrite H, list_lookup_imap.
Qed.

(** C1: the code at the scenario of dataset "A", whose jobs at the
    submission indices 0, 1 and 2 score 0.5, 0.8 and 0.3.  With the results
    arriving in the completion order 2, 0, 1 the recorded best index is 3,
    the arrival position of the job that scores 0.8, counted from one; in
    submission order it is 2.  The configuration of that job (the one with
    batch size 1) is saved in, and the retention keeps, the directory
    [pipe_3] in the first case and [pipe_2] in the second. *)
Theorem best_index_depends_on_arrival :
  recorded (scenario_A [2; 0; 1]%nat) "A"
    = Some (mkBest (score 8 10) (Some 3%nat)) ∧
  recorded (scenario_A [0; 1; 2]%nat) "A"
    = Some (mkBest (score 8 10) (Some 2%nat)) ∧
  retained (scenario_A [2; 0; 1]%nat) "A" "pipe_3"
    = Some (EDir {[ "model.ckpt"%string := Blob "w3";
                    "config.json"%string := ConfigJson (example_config "A" 1) ]}) ∧
  retained (scenario_A [2; 0; 1]%nat) "A" "pipe_2" = None ∧
  retained (scenario_A [0; 1; 2]%nat) "A" "pipe_2"
    = Some (EDir {[ "model.ckpt"%string := Blob "w2";
                    "config.json"%string := ConfigJson (example_config "A" 1) ]}) ∧
  retained (scenario_A [0; 1; 2]%nat) "A" "pipe_3" = None.
Proof. split_and!; by vm_compute. Qed.

(** The best index that a run records for a dataset is one more than the
    position, in the sequence of results as ingested, of the first result
    of the dataset that reaches the dataset's highest score of the target
    metric, provided that score is above -1; no result of the dataset
    scores higher than the recorded best score.  The target metric is the
    one that the first ingested result fixes.  When the results are
    ingested in submission order, the position is the submission index. *)
Theorem best_index_is_ingestion_position
    cpu te cv rb self logger gen proc completion disk dr fs d e :
  save_best self = true →
  outcome (run cpu te cv rb self logger gen proc completion disk)
    = Ends (Ok (dr, fs)) →
  dr !! d = Some e →
  let tasks :=
    submitted (run cpu te cv rb self logger gen proc completion disk) in
  let rs := imap_unordered te cv proc tasks completion in
  (∃ res pipe tm,
     head rs = Some (Ok res) ∧
     res !! "pipe_conf"%string = Some (VConfig pipe) ∧
     fixes_target (target_metric self) pipe tm ∧
     records_best tm rs d e) ∧
  (completion = seq 0 (length tasks) →
   ∀ j, rs !! j =
        (λ args, (train_pipe te cv (environ (proc j)) (time_before (proc j))
                    (time_after (proc j)) args).2) <$> tasks !! j).
Proof.
  intros Hsb (st & Hst & -> & _)%run_Ok He tasks rs. split.
  - subst rs tasks.
    destruct (imap_unordered te cv proc _ completion) as [|r rs] eqn:Hrs.
    { injection Hst as <-. cbn in He. by rewrite lookup_empty in He. }
    destruct (update_logger_obs _ _ _ _ _ _ Hsb Hst)
      as (res & pipe & tm & obs & -> & Hp & Hfix & _ & Hobs & Hdr).
    exists res, pipe, tm. split_and!; [done..|]. rewrite Hdr in He.
    by eapply tracks_records; [done|apply tracks_fold_0|].
  - subst rs. clearbody tasks. intros -> j. apply imap_unordered_in_order.
Qed.

(** In the scenario of dataset "A" ingested in submission order, the
    recorded index is 2: the result at position 1, scoring 0.8. *)
Lemma best_index_is_ingestion_position_witness :
  recorded (scenario_A [0; 1; 2]%nat) "A" = Some (mkBest (score 8 10) (Some 2%nat)) ∧
  ∃ res pipe tm,
    head (results_A [0; 1; 2]%nat) = Some (Ok res) ∧
    res !! "pipe_conf"%string = Some (VConfig pipe) ∧
    fixes_target None pipe tm ∧
    records_best tm (results_A [0; 1; 2]%nat) "A"
      (mkBest (score 8 10) (Some 2%nat)).
Proof.
  split; [by vm_compute|].
  refine (proj1 (best_index_is_ingestion_position 8 _ _ example_rebuilds
                   example_manager example_logger jobs_A example_process
                   [0; 1; 2]%nat example_disk _ _ "A" _ _ _ _)).
  - reflexivity.
  - unfold outcome. vm_compute. reflexivity.
  - vm_compute. reflexivity.
Defined.

(** ** Monotonicity *)

Lemma step_best_mono d i s dr d' e :
  dr !! d' = Some e →
  ∃ e', step_best d i s dr !! d' = Some e' ∧
        (best_score e ≤ best_score e')%Qc ∧
        (e' = e ∨
         d' = d ∧ (best_score e < s)%Qc ∧ e' = mkBest s (Some (i + 1)%nat)) ∧
        ((s ≤ best_score e)%Qc → e' = e).
Proof.
  intros He. unfold step_best. destruct (decide (d' = d)) as [->|Hne].
  - rewrite He; cbn. case_bool_decide as Hlt; rewrite lookup_insert_eq.
    + eexists. split; [done|]. split; [cbn; auto with score|].
      split; [by right|]. intros Hle. by destruct (Qc_le_nlt _ _ Hle).
    + exists e. auto with score.
  - exists e. case_bool_decide; rewrite lookup_insert_ne by done;
      auto 6 with score.
Qed.

Lemma update_logger_body_mono i res st st' d e :
  update_logger_body i res st = Ok st' →
  dataset_res st !! d = Some e →
  ∃ e', dataset_res st' !! d = Some e' ∧
        (best_score e ≤ best_score e')%Qc ∧
        (e' = e ∨
         ∃ tm s, target_metric (agg_self st') = Some tm ∧
                 observed tm (Ok res) d s ∧ (best_score e < s)%Qc ∧
                 e' = mkBest s (Some (i + 1)%nat)) ∧
        (∀ tm s, target_metric (agg_self st') = Some tm →
                 observed tm (Ok res) d s → (s ≤ best_score e)%Qc → e' = e).
Proof.
  intros (pipe & m & Hp & Hm & _ & Hdr)%update_logger_body_inv He.
  destruct (save_best (agg_self st)).
  2:{ rewrite Hdr. exists e. auto with score. }
  destruct (target_metric (agg_self st')) as [tm|] eqn:Htm; [|done].
  apply track_best_step in Hdr as (s & Hs & ->).
  destruct (step_best_mono (data_path pipe) i s _ _ _ He)
    as (e' & He' & Hle & Hcases & Htie).
  exists e'. split; [done|]. split; [done|]. split.
  - destruct Hcases as [->|(-> & Hlt & ->)]; [by left|right].
    exists tm, s. split_and!; [done| |done..]. by econstructor.
  - intros tm' s' [= <-] Ho Hle'.
    destruct Hcases as [->|(-> & Hlt & ->)]; [done|].
    assert (observed tm (Ok res) (data_path pipe) s) as Ho' by by econstructor.
    destruct (observed_fun _ _ _ _ _ _ Ho Ho') as [_ ->]. by apply Htie.
Qed.

(** C6.  Across any stretch of the ingestion the best score of a dataset
    does not decrease, and the stored entry (score and index) is replaced
    only by a strictly greater score; within one ingestion, the entry is
    either kept or replaced by the new result's score and index, the latter
    only when that score is strictly greater than the stored one, so that a
    tie keeps the entry recorded earlier. *)
Theorem best_score_non_decreasing rs :
  ∀ i st st' d e,
    update_logger_loop i rs st = Ok st' →
    dataset_res st !! d = Some e →
    (∃ e', dataset_res st' !! d = Some e' ∧
           (best_score e ≤ best_score e')%Qc ∧
           (e' = e ∨ (best_score e < best_score e')%Qc)) ∧
    (∀ res st1, update_logger_body i res st = Ok st1 →
       ∃ e1, dataset_res st1 !! d = Some e1 ∧
             (e1 = e ∨
              ∃ tm s, target_metric (agg_self st1) = Some tm ∧
                      observed tm (Ok res) d s ∧ (best_score e < s)%Qc ∧
                      e1 = mkBest s (Some (i + 1)%nat)) ∧
             (∀ tm s, target_metric (agg_self st1) = Some tm →
                      observed tm (Ok res) d s → (s ≤ best_score e)%Qc →
                      e1 = e)).
Proof.
  induction rs as [|r rs IH]; intros i st st' d e H He; (split; [|
    intros res st1 Hb;
    destruct (update_logger_body_mono _ _ _ _ _ _ Hb He) as (e1 & ? & ? & ? & ?);
    by exists e1]).
  - injection H as <-. exists e. auto with score.
  - cbn in H. apply bind_Ok in H as (res & -> & H).
    apply bind_Ok in H as (st1 & Hb & H).
    destruct (update_logger_body_mono _ _ _ _ _ _ Hb He)
      as (e1 & He1 & Hle1 & Hc1 & _).
    destruct (IH _ _ _ _ _ H He1) as [(e' & He' & Hle' & Hc') _].
    exists e'. split; [done|]. split; [eauto with score|].
    destruct Hc1 as [->|(tm & s & _ & _ & Hlt & ->)]; [done|].
    right. destruct Hc' as [->|Hlt']; cbn in *; eauto with score.
Qed.

(** The scenario of dataset "A": with the first result (0.5) recorded,
    the second (0.8) replaces the entry and the third (0.3) leaves it. *)
Lemma best_score_non_decreasing_witness :
  ∃ st',
    update_logger_loop 1 (results_A [1; 2]%nat) state_after_first = Ok st' ∧
    dataset_res state_after_first !! "A"%string
      = Some (mkBest (score 5 10) (Some 1%nat)) ∧
    dataset_res st' !! "A"%string = Some (mkBest (score 8 10) (Some 2%nat)) ∧
    ∃ e', dataset_res st' !! "A"%string = Some e' ∧
          (score 5 10 ≤ best_score e')%Qc ∧
          (e' = mkBest (score 5 10) (Some 1%nat) ∨ (score 5 10 < best_score e')%Qc).
Proof.
  eexists. split; [vm_compute; reflexivity|].
  split; [reflexivity|]. split; [vm_compute; reflexivity|].
  refine (proj1 (best_score_non_decreasing (results_A [1; 2]%nat) 1%nat
                   state_after_first _ "A" (mkBest (score 5 10) (Some 1%nat)) _ _)).
  - vm_compute; reflexivity.
  - reflexivity.
Defined.

(** ** The target metric *)

Lemma observe_observed tm r d s :
  observe tm r = Some (d, s) ↔ observed tm r d s.
Proof.
  unfold observe. split.
  - destruct r as [res|]; [|done].
    destruct (res !! "pipe_conf"%string) as [[pipe| |]|] eqn:Hp; try done.
    destruct (res !! "results"%string) as [[|m|]|] eqn:Hm; try done.
    destruct (target_score (Some tm) m) as [s'|] eqn:Hs; [|done].
    intros [= <- <-]. econstructor; eauto. by apply target_score_reads.
  - intros [res pipe m -> Hp <- Hm Hs%target_score_reads].
    by rewrite Hp, Hm, Hs.
Qed.




(** ** A dataset whose scores never leave the initial best *)

(** A decimal numeral is not the word that formats [None]. *)
Lemma pretty_N_go_not_capital (x : N) : ∀ s s',
  s ≠ "N" +:+ s' → pretty_N_go x s ≠ "N" +:+ s'.
Proof.
  induction (N.lt_wf_0 x) as [x _ IH]; intros s s' Hs.
  destruct (decide (x = 0)%N) as [->|Hx]; [done|].
  rewrite pretty_N_go_step by lia. apply IH.
  - apply N.div_lt; lia.
  - intros [= Hc _]. revert Hc. unfold pretty_N_char.
    by repeat case_match.
Qed.

Lemma pipe_name_Some_ne_None (k : nat) : pipe_name (Some k) ≠ pipe_name None.
Proof.
  unfold pipe_name; cbn. intros [= H]. revert H.
  unfold pretty, pretty_nat, pretty, pretty_N.
  case_decide; [done|]. by apply pretty_N_go_not_capital.
Qed.

Lemma pipe_name_prefix (k : option nat) : String.prefix "pipe" (pipe_name k) = true.
Proof. done. Qed.

Lemma retain_file_other_pipe k source dest1 disk :
  retain_file None source dest1 (pipe_name (Some k)) disk = (disk, None).
Proof.
  unfold retain_file. rewrite pipe_name_prefix; cbn.
  rewrite bool_decide_eq_false_2; [done|]. apply pipe_name_Some_ne_None.
Qed.

Lemma scores_at_most_spec tm d bound rs :
  scores_at_most tm d bound rs = true →
  ∀ j r s, rs !! j = Some r → observed tm r d s → (s ≤ bound)%Qc.
Proof.
  unfold scores_at_most. rewrite forallb_forall.
  intros Hall j r s Hj Ho%observe_observed.
  apply list_elem_of_lookup_2, list_elem_of_In, Hall in Hj.
  rewrite Ho in Hj. rewrite decide_True in Hj by done.
  by apply bool_decide_eq_true in Hj.
Qed.

(** C10.  When every score ingested for a dataset is at most -1, the
    dataset ends with the initial entry, best score -1 and no best index;
    the retention then compares the names in the working directory with
    ["pipe_None"], so that the directory of no pipeline is kept. *)
Theorem no_best_index_when_no_score_above_initial
    self logger disk rs st tm d :
  save_best self = true →
  update_logger self logger disk rs = Ok st →
  target_metric (agg_self st) = Some tm →
  (∃ j r s, rs !! j = Some r ∧ observed tm r d s) →
  (∀ j r s, rs !! j = Some r → observed tm r d s → (s ≤ -1)%Qc) →
  dataset_res st !! d = Some (mkBest (-1)%Qc None) ∧
  pipe_name (best_ind (mkBest (-1)%Qc None)) = "pipe_None"%string ∧
  ∀ k source dest1 disk',
    retain_file (best_ind (mkBest (-1)%Qc None)) source dest1
      (pipe_name (Some k)) disk' = (disk', None).
Proof.
  intros Hsb Hst Htm (j & r & s & Hr & Ho) Hlow.
  destruct (update_logger_records _ _ _ _ _ Hsb Hst) as [Hrec Hseen].
  destruct (Hseen tm j r d s Htm Hr Ho) as [[bs bi] He].
  destruct (Hrec d _ He) as (tm' & Htm' & Hle & Hk).
  assert (tm' = tm) as -> by congruence. cbn in Hle, Hk.
  split; [|split; [done|intros; apply retain_file_other_pipe]].
  rewrite He. destruct bi as [k|]; [|by rewrite Hk].
  destruct Hk as (j0 & r0 & _ & Hr0 & Ho0 & Hgt & _).
  destruct (Qc_le_nlt _ _ (Hlow _ _ _ Hr0 Ho0) Hgt).
Qed.

(** Three results for dataset "A" with the scores -1, -2 and -1. *)
Lemma no_best_index_when_no_score_above_initial_witness :
  ∃ st,
    update_logger example_manager example_logger example_disk results_low = Ok st ∧
    dataset_res st !! "A"%string = Some (mkBest (-1)%Qc None).
Proof.
  destruct (update_logger example_manager example_logger example_disk results_low)
    as [st|] eqn:Hst; [|by vm_compute in Hst].
  exists st. split; [done|].
  refine (proj1 (no_best_index_when_no_score_above_initial example_manager
                   example_logger example_disk results_low st "accuracy" "A"
                   eq_refl Hst _ _ _)).
  - apply (f_equal (λ r, match r with
                         | Ok st => target_metric (agg_self st)
                         | Raise _ => None
                         end)) in Hst.
    rewrite <-Hst. vm_compute; reflexivity.
  - exists 0%nat, (Ok first_result_low), (score (-1) 1).
    split; [vm_compute; reflexivity|].
    apply observe_observed. vm_compute; reflexivity.
  - apply scores_at_most_spec. vm_compute; reflexivity.
Defined.

(** ** Claims on the worker *)




(** ** Claims on the GPU assignment *)

(** The index that [gpu_gen] hands to the job submitted at position [i] is
    the remainder of [i] by the number of slots. *)
Lemma gpu_gen_item_mod self i pipe_conf slots :
  available_gpu self = Some slots → slots ≠ [] →
  gpu_gen_item self i pipe_conf =
    Ok (mkArgs pipe_conf (cross_validation self) (k_fold self) true
          (Some (Z.of_nat i `mod` len slots))).
Proof.
  intros Hs Hne. unfold gpu_gen_item. rewrite Hs; cbn.
  assert (0 < len slots) by (unfold len; destruct slots; [done|cbn; lia]).
  rewrite (proj2 (Z.eqb_neq _ _)) by lia.
  do 3 f_equal. rewrite Z.mod_eq by lia. lia.
Qed.

(** A worker started with [gpu] set makes visible the device whose number
    is the [gpu_ind] it was given, before the training code runs: the
    training code receives the environment with the variable set. *)
Lemma train_pipe_visible_device te cv environ t_start t_end c cval k ind :
  (train_pipe te cv environ t_start t_end (mkArgs c cval k true (Some ind))).1
    !! CUDA_VISIBLE_DEVICES = Some (pretty ind).
Proof.
  unfold train_pipe; cbn.
  destruct (if cval then _ else _); cbn; by rewrite lookup_insert_eq.
Qed.

(** C3: the code at the GPU slots [2; 5] with four jobs.  The jobs are
    handed the indices 0, 1, 0, 1, the positions in the slot list, where
    the slots at these positions are the devices 2, 5, 2, 5; the worker of
    the first job makes the device 0 visible, not the device 2. *)
Theorem gpu_gen_yields_slot_positions :
  (match gpu_gen manager_gpus_2_5 jobs_4 with
   | Ok tasks => Some (gpu_ind <$> tasks)
   | Raise _ => None
   end) = Some [Some 0; Some 1; Some 0; Some 1] ∧
  (λ i, [2; 5] !! (i `mod` 2)%nat) <$> [0; 1; 2; 3]%nat
    = [Some 2; Some 5; Some 2; Some 5] ∧
  (match gpu_gen manager_gpus_2_5 jobs_4 with
   | Ok (task :: _) =>
       (train_pipe (example_trainer scores_A) example_cv ∅ (score 0 1)
          (score 1 1) task).1 !! CUDA_VISIBLE_DEVICES
   | _ => None
   end) = Some "0"%string.
Proof. split; [reflexivity|]. split; reflexivity. Qed.

(** ** Claims on the resource planning *)

Lemma prepare_multiprocess_conflict cpu gpus avail check i07 self :
  use_all_gpus self = true → truthy_list (use_multi_gpus self) = true →
  (prepare_multiprocess cpu gpus avail check i07 self).2 = Raise ValueError.
Proof.
  intros Hall Hmulti. unfold prepare_multiprocess.
  destruct (max_num_workers_ self) as [w|]; [destruct (cpu <? w)|];
    cbn; by rewrite Hall, Hmulti.
Qed.

(** The planning in the mode that uses all GPUs, by cases. *)
Lemma prepare_multiprocess_all_gpus cpu gpus avail check i07 self :
  use_all_gpus self = true → truthy_list (use_multi_gpus self) = false →
  (prepare_multiprocess cpu gpus avail check i07 self).2 =
    match max_num_workers_ self with
    | None =>
        Ok (set_max_num_workers
              (Some (if len (avail None) <? i07 cpu then len (avail None)
                     else i07 cpu))
              (set_available_gpu (Some (avail None)) self))
    | Some w =>
        let self := set_max_num_workers_ (Some (clamped cpu w)) self in
        if gpus <? clamped cpu w
        then Ok (set_available_gpu (Some (avail None))
                   (set_max_num_workers (Some gpus) self))
        else Ok (set_available_gpu (Some (avail (Some (clamped cpu w)))) self)
    end.
Proof.
  intros Hall Hmulti. unfold prepare_multiprocess, clamped.
  destruct (max_num_workers_ self) as [w|] eqn:Hw.
  - destruct (cpu <? w) eqn:Hcpu; cbn; rewrite Hall, Hmulti; cbn.
    + by destruct (gpus <? cpu).
    + rewrite Hw. destruct self; cbn in *; subst. by destruct (gpus <? w).
  - cbn. rewrite Hall, Hmulti, Hw. by destruct (len _ <? _).
Qed.

(** What the planning does in the mode that uses all GPUs, without an
    explicit list: it succeeds.  With no requested worker count, the
    worker count is the smaller of the number of idle GPUs and
    [int(cpu_count * 0.7)], and the GPU slots are all the idle GPUs, so
    that there are at least as many slots as workers.  With a requested
    count that, cut down to the number of processors, exceeds the number of
    GPUs, the worker count is the number of GPUs and the slots are all the
    idle GPUs; when it does not exceed the number of GPUs, the worker count
    is not assigned (it keeps the value it had, [None] after [__init__])
    and the slots are as many idle GPUs as that count asks the probe for.
    The slots are pairwise distinct as far as the probe's lists are. *)
Theorem all_gpus_plan cpu gpus avail check i07 self :
  use_all_gpus self = true → truthy_list (use_multi_gpus self) = false →
  ∃ self',
    (prepare_multiprocess cpu gpus avail check i07 self).2 = Ok self' ∧
    (max_num_workers_ self = None →
       max_num_workers self' = Some (Z.min (len (avail None)) (i07 cpu)) ∧
       available_gpu self' = Some (avail None) ∧
       Z.min (len (avail None)) (i07 cpu) ≤ len (avail None)) ∧
    (∀ w, max_num_workers_ self = Some w → gpus < clamped cpu w →
       max_num_workers self' = Some gpus ∧
       available_gpu self' = Some (avail None)) ∧
    (∀ w, max_num_workers_ self = Some w → clamped cpu w ≤ gpus →
       max_num_workers self' = max_num_workers self ∧
       available_gpu self' = Some (avail (Some (clamped cpu w)))) ∧
    ((∀ n, NoDup (avail n)) →
       ∃ slots, available_gpu self' = Some slots ∧ NoDup slots).
Proof.
  intros Hall Hmulti.
  rewrite (prepare_multiprocess_all_gpus _ _ _ _ _ _ Hall Hmulti).
  destruct (max_num_workers_ self) as [w|]; cbn.
  - destruct (gpus <? clamped cpu w) eqn:Hgpu; eexists; (split; [done|]);
      cbn; (split; [done|]).
    + apply Z.ltb_lt in Hgpu. split; [by intros w' [= <-] _|]. split.
      * intros w' [= <-] ?. lia.
      * intros Hnd. eexists. split; [done|apply Hnd].
    + apply Z.ltb_ge in Hgpu. split; [intros w' [= <-] ?; lia|]. split.
      * by intros w' [= <-] _.
      * intros Hnd. eexists. split; [done|apply Hnd].
  - eexists. split; [done|]. cbn. split; [|split; [done|split; [done|]]].
    + intros _. split; [|split; [done|lia]].
      f_equal. destruct (len _ <? _) eqn:Hlen; lia.
    + intros Hnd. eexists. split; [done|apply Hnd].
Qed.

(** Four idle GPUs and four processors, no requested count: two workers. *)
Lemma all_gpus_plan_witness :
  ∃ self',
    (prepare_multiprocess 4 4 example_gpus (λ _, true) example_int_times_07
       args_all_gpus).2 = Ok self' ∧
    max_num_workers self' = Some 2 ∧
    available_gpu self' = Some [0; 1; 2; 3].
Proof.
  destruct (all_gpus_plan 4 4 example_gpus (λ _, true) example_int_times_07
              args_all_gpus eq_refl eq_refl)
    as (self' & Hplan & Hnone & _).
  exists self'. split; [exact Hplan|].
  destruct (Hnone eq_refl) as (Hw & Hg & _). split; [exact Hw|exact Hg].
Defined.

(** C4: the code in the mode that uses all GPUs, on a host with eight
    processors and four GPUs.  With two workers requested and all GPUs
    idle, the plan has the two slots 0 and 1 but no worker count: the
    attribute is still [None], and the pool of the run gets eight
    processes, not min(2, 4) = 2.  With six workers requested and the two
    GPUs 1 and 3 idle, the worker count is 4, the number of GPUs, on two
    slots, not min(6, 2) = 2.  With no count requested, four processors
    and four idle GPUs, the plan has two workers and four slots. *)
Theorem all_gpus_plan_worker_count :
  (∃ self',
     (init 8 4 example_gpus (λ _, true) example_int_times_07
        (args_all_gpus_workers 2)).2 = Ok self' ∧
     max_num_workers self' = None ∧
     available_gpu self' = Some [0; 1] ∧
     Pool 8 (max_num_workers self') = Ok 8) ∧
  (∃ self',
     (init 8 4 example_gpus_two_idle gpus_1_3_idle example_int_times_07
        (args_all_gpus_workers 6)).2 = Ok self' ∧
     max_num_workers self' = Some 4 ∧
     available_gpu self' = Some [1; 3]) ∧
  (∃ self',
     (example_plan args_all_gpus).2 = Ok self' ∧
     max_num_workers self' = Some 2 ∧
     available_gpu self' = Some [0; 1; 2; 3]).
Proof. split_and!; eexists; (split; [reflexivity|]); done. Qed.

(** C8 (amended).  The planning raises [ValueError] whenever both GPU
    modes are requested; the construction of a manager runs the planning
    when [multiprocessing] is set, and then raises before a run can start,
    so that no job is submitted. *)
Theorem conflicting_gpu_modes_raise
    cpu gpus avail check i07 te cv rb args logger gen proc completion disk :
  use_all_gpus args = true → truthy_list (use_multi_gpus args) = true →
  (prepare_multiprocess cpu gpus avail check i07 args).2 = Raise ValueError ∧
  (multiprocessing args = true →
     (init cpu gpus avail check i07 args).2 = Raise ValueError ∧
     experiment cpu gpus avail check i07 te cv rb args logger gen proc
       completion disk = mkReport [] (Ends (Raise ValueError))).
Proof.
  intros Hall Hmulti. split; [by apply prepare_multiprocess_conflict|].
  intros Hmp.
  assert ((init cpu gpus avail check i07 args).2 = Raise ValueError) as Hinit.
  { unfold init. cbn. rewrite Hmp. by apply prepare_multiprocess_conflict. }
  split; [done|]. unfold experiment.
  destruct (init cpu gpus avail check i07 args) as [out [self|e]];
    cbn in Hinit; [done|]. by injection Hinit as ->.
Qed.

Lemma conflicting_gpu_modes_raise_witness :
  (example_plan (args_both_modes true)).2 = Raise ValueError ∧
  experiment 4 4 example_gpus (λ _, true) example_int_times_07
    (example_trainer scores_A) example_cv example_rebuilds
    (args_both_modes true) example_logger jobs_A example_process
    [2; 0; 1]%nat example_disk
  = mkReport [] (Ends (Raise ValueError)).
Proof.
  exact (proj2 (conflicting_gpu_modes_raise 4 4 example_gpus (λ _, true)
                  example_int_times_07 (example_trainer scores_A) example_cv
                  example_rebuilds (args_both_modes true) example_logger
                  jobs_A example_process [2; 0; 1]%nat example_disk
                  eq_refl eq_refl) eq_refl).
Defined.

(** C8, as stated, fails: with both GPU modes requested and
    [multiprocessing] off, the construction skips the planning and
    succeeds, and the run submits the three jobs. *)
Lemma conflicting_gpu_modes_without_planning :
  is_Ok (example_plan (args_both_modes false)).2 = true ∧
  length (submitted
            (experiment 4 4 example_gpus (λ _, true) example_int_times_07
               (example_trainer scores_A) example_cv example_rebuilds
               (args_both_modes false) example_logger jobs_A example_process
               [2; 0; 1]%nat example_disk)) = 3%nat ∧
  returns (outcome
             (experiment 4 4 example_gpus (λ _, true) example_int_times_07
                (example_trainer scores_A) example_cv example_rebuilds
                (args_both_modes false) example_logger jobs_A example_process
                [2; 0; 1]%nat example_disk)) = true.
Proof. split; [reflexivity|]. split; [reflexivity|]. vm_compute; reflexivity. Qed.

(** ** Claims on the retention *)

Lemma best_dir_ne (name : string) : name ≠ best_dir name.
Proof.
  unfold best_dir. induction name as [|a name IH]; [done|].
  intros [= H]. by apply IH.
Qed.

Lemma retain_file_ok bi name bd f disk src dst e :
  name ≠ bd →
  disk !! name = Some (Dir src) → disk !! bd = Some (Dir dst) →
  src !! f = Some e → safe_entry bi dst f →
  ∃ disk',
    retain_file bi name bd f disk = (disk', None) ∧
    disk' !! name = Some (Dir (if kept bi dst f then delete f src else src)) ∧
    disk' !! bd = Some (Dir (if kept bi dst f then <[f := e]> dst else dst)) ∧
    ∀ x, x ≠ name → x ≠ bd → disk' !! x = disk !! x.
Proof.
  intros Hne Hsrc Hdst He Hsafe.
  unfold retain_file, kept, safe_entry, isfile_in, isdir_in in *.
  rewrite Hdst. destruct (String.prefix "pipe" f) eqn:Hpre; cbn.
  - case_bool_decide as Hbest; [|by exists disk].
    destruct (dst !! f) as [[c|fs]|] eqn:Hf.
    + by destruct (Hsafe Hbest c).
    + unfold rmtree_in. rewrite Hdst, Hf. unfold shutil_move.
      rewrite lookup_insert_ne, Hsrc, lookup_insert_eq, He, lookup_delete_eq
        by done.
      eexists. split; [done|]. split_and!.
      * by rewrite lookup_insert_ne, lookup_insert_eq.
      * by rewrite lookup_insert_eq, insert_delete_eq.
      * intros x ??. by rewrite !lookup_insert_ne.
    + unfold shutil_move. rewrite Hsrc, Hdst, He, Hf.
      eexists. split; [done|]. split_and!.
      * by rewrite lookup_insert_ne, lookup_insert_eq.
      * by rewrite lookup_insert_eq.
      * intros x ??. by rewrite !lookup_insert_ne.
  - destruct (dst !! f) as [[c|fs]|] eqn:Hf; cbn.
    + rewrite bool_decide_eq_false_2; [by exists disk|].
      intros ->. by rewrite pipe_name_prefix in Hpre.
    + by destruct (Hsafe fs).
    + unfold shutil_move. rewrite Hsrc, Hdst, He, Hf.
      eexists. split; [done|]. split_and!.
      * by rewrite lookup_insert_ne, lookup_insert_eq.
      * by rewrite lookup_insert_eq.
      * intros x ??. by rewrite !lookup_insert_ne.
Qed.

Lemma kept_ext bi (dst dst' : gmap string entry) f :
  dst' !! f = dst !! f → kept bi dst' f = kept bi dst f.
Proof. unfold kept. by intros ->. Qed.

Lemma safe_entry_ext bi (dst dst' : gmap string entry) f :
  dst' !! f = dst !! f → safe_entry bi dst f → safe_entry bi dst' f.
Proof. unfold safe_entry. by intros ->. Qed.

(** The loop over the listed names, for any listing without repetition. *)
Lemma retain_files_ok bi name bd : name ≠ bd → ∀ files disk src dst,
  NoDup files →
  disk !! name = Some (Dir src) → disk !! bd = Some (Dir dst) →
  (∀ f, f ∈ files → is_Some (src !! f)) →
  (∀ f, f ∈ files → safe_entry bi dst f) →
  ∃ disk' src' dst',
    retain_files bi name bd files disk = (disk', None) ∧
    disk' !! name = Some (Dir src') ∧ disk' !! bd = Some (Dir dst') ∧
    (∀ x, x ≠ name → x ≠ bd → disk' !! x = disk !! x) ∧
    (∀ g, src' !! g =
          if bool_decide (g ∈ files) && kept bi dst g then None else src !! g) ∧
    (∀ g, dst' !! g =
          if bool_decide (g ∈ files) && kept bi dst g then src !! g else dst !! g).
Proof.
  intros Hne files.
  induction files as [|f files IH]; intros disk src dst Hnd Hsrc Hdst Hin Hsafe.
  { exists disk, src, dst. by split_and!. }
  apply NoDup_cons in Hnd as [Hf Hnd].
  destruct (Hin f) as [e He]; [by left|].
  destruct (retain_file_ok bi name bd f disk src dst e)
    as (disk1 & Hstep & Hsrc1 & Hdst1 & Hother1); [done..|by apply Hsafe; left|].
  set (src1 := if kept bi dst f then delete f src else src) in *.
  set (dst1 := if kept bi dst f then <[f:=e]> dst else dst) in *.
  assert (∀ g, g ≠ f → src1 !! g = src !! g) as Hs1.
  { intros g ?. unfold src1. destruct (kept bi dst f); [|done].
    by rewrite lookup_delete_ne. }
  assert (∀ g, g ≠ f → dst1 !! g = dst !! g) as Hd1.
  { intros g ?. unfold dst1. destruct (kept bi dst f); [|done].
    by rewrite lookup_insert_ne. }
  destruct (IH disk1 src1 dst1) as
    (disk' & src' & dst' & Hloop & Hsrc' & Hdst' & Hother' & Hs' & Hd');
    [done..| | |].
  { intros g Hg. rewrite Hs1; [apply Hin; by right|]. by intros ->. }
  { intros g Hg. apply (safe_entry_ext _ dst); [|apply Hsafe; by right].
    apply Hd1. by intros ->. }
  exists disk', src', dst'. cbn. rewrite Hstep. split_and!; [done..| | |].
  - intros x ??. rewrite Hother', Hother1; done.
  - intros g. rewrite Hs'. destruct (decide (g = f)) as [->|Hgf].
    + rewrite (bool_decide_eq_false_2 (f ∈ files)) by done.
      rewrite (bool_decide_eq_true_2 (f ∈ f :: files)) by (by left). cbn.
      unfold src1. destruct (kept bi dst f); [by rewrite lookup_delete_eq|done].
    + rewrite (kept_ext _ dst dst1), Hs1 by auto.
      rewrite (bool_decide_ext (g ∈ f :: files) (g ∈ files)); [done|].
      rewrite elem_of_cons. split; [intros [?|?]; [congruence|done]|by right].
  - intros g. rewrite Hd'. destruct (decide (g = f)) as [->|Hgf].
    + rewrite (bool_decide_eq_false_2 (f ∈ files)) by done.
      rewrite (bool_decide_eq_true_2 (f ∈ f :: files)) by (by left). cbn.
      unfold dst1. destruct (kept bi dst f); [by rewrite lookup_insert_eq|done].
    + rewrite (kept_ext _ dst dst1), Hs1, Hd1 by auto.
      rewrite (bool_decide_ext (g ∈ f :: files) (g ∈ files)); [done|].
      rewrite elem_of_cons. split; [intros [?|?]; [congruence|done]|by right].
Qed.

Lemma listdir_Dir (disk : tree) name src :
  disk !! name = Some (Dir src) →
  ∃ files, listdir disk name = Ok files ∧ NoDup files ∧
           ∀ f, f ∈ files ↔ is_Some (src !! f).
Proof.
  intros Hsrc. unfold listdir. rewrite Hsrc. eexists. split; [done|].
  split; [apply NoDup_fst_map_to_list|].
  intros f. rewrite list_elem_of_fmap. split.
  - intros ([f' e] & -> & He%elem_of_map_to_list). by exists e.
  - intros [e He]. exists (f, e). by rewrite elem_of_map_to_list.
Qed.

(** C5 (amended).  When the working directory of a dataset exists, the
    name of its best directory is free or a directory, and no move meets
    an obstacle, the retention of the dataset succeeds.  After it, the
    directory [<dataset>_best_pipe] holds every entry of the working
    directory whose name does not start with "pipe", unless it already had
    a regular file of that name, which it keeps; it holds the entry named
    [pipe_<best index>] of the working directory, which replaces a
    directory of that name; its other entries are as before.  The working
    directory, with the entries of all the other pipelines, is gone, and
    nothing else under the save path has changed. *)
Theorem retention_keeps_best name b disk src :
  disk !! name = Some (Dir src) →
  (∀ c, disk !! best_dir name ≠ Some (File c)) →
  (∀ f, is_Some (src !! f) →
        safe_entry (best_ind b) (best_entries disk name) f) →
  ∃ disk' dst',
    retain_dataset name b disk = (disk', None) ∧
    disk' !! name = None ∧
    disk' !! best_dir name = Some (Dir dst') ∧
    (∀ x, x ≠ name → x ≠ best_dir name → disk' !! x = disk !! x) ∧
    ∀ f, dst' !! f =
         match src !! f with
         | Some e =>
             if kept (best_ind b) (best_entries disk name) f then Some e
             else best_entries disk name !! f
         | None => best_entries disk name !! f
         end.
Proof.
  intros Hsrc Hbd Hsafe. pose proof (best_dir_ne name) as Hne.
  set (dst := best_entries disk name) in *.
  unfold retain_dataset.
  assert (∃ disk0,
            (if isdir disk (best_dir name) then (disk, None)
             else makedirs disk (best_dir name)) = (disk0, None) ∧
            disk0 !! name = Some (Dir src) ∧
            disk0 !! best_dir name = Some (Dir dst) ∧
            ∀ x, x ≠ best_dir name → disk0 !! x = disk !! x)
    as (disk0 & -> & Hsrc0 & Hdst0 & Hother0).
  { unfold isdir, makedirs, dst, best_entries.
    destruct (disk !! best_dir name) as [[c|d]|] eqn:Hd.
    - by destruct (Hbd c).
    - by exists disk.
    - eexists. split; [done|]. rewrite lookup_insert_eq, lookup_insert_ne by done.
      split_and!; [done..|]. intros x ?. by rewrite lookup_insert_ne. }
  destruct (listdir_Dir _ _ _ Hsrc0) as (files & -> & Hnd & Hfiles).
  destruct (retain_files_ok (best_ind b) name (best_dir name) Hne files
              disk0 src dst Hnd Hsrc0 Hdst0)
    as (disk1 & src1 & dst1 & -> & Hsrc1 & Hdst1 & Hother1 & _ & Hd1).
  { intros f. apply Hfiles. }
  { intros f Hf. apply Hsafe, Hfiles, Hf. }
  unfold rmtree. rewrite Hsrc1. exists (delete name disk1), dst1.
  split; [done|]. split; [apply lookup_delete_eq|].
  split; [by rewrite lookup_delete_ne|]. split.
  - intros x ??. by rewrite lookup_delete_ne, Hother1, Hother0.
  - intros f. rewrite Hd1. destruct (src !! f) as [e|] eqn:He.
    + rewrite bool_decide_eq_true_2; [done|]. apply Hfiles. by exists e.
    + rewrite bool_decide_eq_false_2; [done|].
      rewrite Hfiles, He. by intros [??].
Qed.

Lemma safe_entry_empty bi f : safe_entry bi ∅ f.
Proof.
  unfold safe_entry. destruct (String.prefix "pipe" f); intros; by rewrite lookup_empty.
Qed.

(** The retention of dataset "A" with the best index 2, on a tree without
    a best directory: the vocabulary and the second pipeline are kept. *)
Lemma retention_keeps_best_witness :
  ∃ disk' dst',
    retain_dataset "A" (mkBest (score 8 10) (Some 2%nat)) example_disk
      = (disk', None) ∧
    disk' !! "A"%string = None ∧
    disk' !! "A_best_pipe"%string = Some (Dir dst') ∧
    dst' !! "vocab.dict"%string = Some (EFile (Blob "new vocabulary")) ∧
    dst' !! "pipe_2"%string = Some (EDir {[ "model.ckpt"%string := Blob "w2" ]}) ∧
    dst' !! "pipe_1"%string = None.
Proof.
  destruct (retention_keeps_best "A" (mkBest (score 8 10) (Some 2%nat))
              example_disk
              (list_to_map
                 [("pipe_1"%string, EDir {[ "model.ckpt"%string := Blob "w1" ]});
                  ("pipe_2"%string, EDir {[ "model.ckpt"%string := Blob "w2" ]});
                  ("pipe_3"%string, EDir {[ "model.ckpt"%string := Blob "w3" ]});
                  ("vocab.dict"%string, EFile (Blob "new vocabulary"))]))
    as (disk' & dst' & Hrun & Hgone & Hbest & _ & Hdst).
  - reflexivity.
  - intros c. discriminate.
  - intros f _. apply safe_entry_empty.
  - exists disk', dst'. split; [exact Hrun|]. split; [exact Hgone|].
    split; [exact Hbest|]. rewrite !Hdst. split_and!; reflexivity.
Defined.

(** C5, as stated, fails.  On a tree that still has the best directory of
    an earlier experiment, the retention of dataset "A" succeeds; there is
    no directory named "A_best", the directory "A_best_pipe" keeps the old
    vocabulary file, and the vocabulary file of the working directory is
    gone with the working directory. *)
Lemma retention_keeps_stale_file :
  let after :=
    retain_dataset "A" (mkBest (score 8 10) (Some 2%nat)) example_disk_rerun in
  after.2 = None ∧
  after.1 !! "A_best"%string = None ∧
  after.1 !! "A"%string = None ∧
  after.1 !! "A_best_pipe"%string =
    Some (Dir (list_to_map
                 [("pipe_1"%string, EDir {[ "model.ckpt"%string := Blob "old w1" ]});
                  ("pipe_2"%string, EDir {[ "model.ckpt"%string := Blob "w2" ]});
                  ("vocab.dict"%string, EFile (Blob "old vocabulary"))])).
Proof. cbv zeta. split_and!; vm_compute; reflexivity. Qed.

(** C9.  On a tree where the working directory of a dataset is gone and
    its best directory is there, the retention of the dataset raises
    [FileNotFoundError] when it lists the working directory, and leaves
    the tree as it is; so does the retention loop as a whole when this
    holds of all its datasets. *)
Theorem retention_of_finalized_dataset self dataset_res disk :
  (∀ name b, dataset_res !! name = Some b →
             disk !! name = None ∧ isdir disk (best_dir name) = true) →
  (∀ name b, dataset_res !! name = Some b →
             retain_dataset name b disk = (disk, Some FileNotFoundError)) ∧
  (retain self dataset_res disk).1 = disk.
Proof.
  intros Hfin.
  assert (∀ name b, dataset_res !! name = Some b →
            retain_dataset name b disk = (disk, Some FileNotFoundError)) as Hone.
  { intros name b [Hgone Hbest]%Hfin. unfold retain_dataset, listdir.
    by rewrite Hbest, Hgone. }
  split; [done|]. unfold retain. destruct (save_best self); [|done].
  destruct (map_to_list dataset_res) as [|[name b] l] eqn:Hl; [done|]. cbn.
  rewrite (Hone name b); [done|].
  apply elem_of_map_to_list. rewrite Hl. by left.
Qed.

(** The tree that the retention of dataset "A" leaves, retained again. *)
Lemma retention_of_finalized_dataset_witness :
  let disk1 :=
    (retain_dataset "A" (mkBest (score 8 10) (Some 2%nat)) example_disk).1 in
  retain_dataset "A" (mkBest (score 8 10) (Some 2%nat)) disk1
    = (disk1, Some FileNotFoundError) ∧
  (retain example_manager {[ "A"%string := mkBest (score 8 10) (Some 2%nat) ]}
     disk1).1 = disk1.
Proof.
  intros disk1.
  destruct (retention_of_finalized_dataset example_manager
              {[ "A"%string := mkBest (score 8 10) (Some 2%nat) ]} disk1)
    as [Hone Hall].
  - intros name b [<- <-]%lookup_singleton_Some.
    split; vm_compute; reflexivity.
  - split; [|exact Hall]. apply Hone, lookup_singleton_eq.
Defined.

(** * Further properties of the code *)

(** ** Resource planning: the remaining modes *)

Lemma check_gpus_spec check inds :
  check_gpus check inds =
    (idle_of check inds, WarnGpuBusy <$> busy_of check inds).
Proof.
  unfold idle_of, busy_of. induction inds as [|ind inds IH]; [done|].
  cbn [check_gpus]. rewrite IH, !filter_cons.
  destruct (check ind) eqn:Hc.
  - by rewrite decide_True, decide_False by done.
  - by rewrite decide_False, decide_True by done.
Qed.

Lemma clamped_le cpu w : clamped cpu w ≤ cpu ∧ clamped cpu w ≤ w.
Proof. unfold clamped. destruct (cpu <? w) eqn:H; lia. Qed.

(** The planning raises only on the conflict of the two GPU modes, and
    then [ValueError]; on every other input it yields a plan. *)
Theorem prepare_multiprocess_raises_iff cpu gpus avail check i07 self e :
  (prepare_multiprocess cpu gpus avail check i07 self).2 = Raise e ↔
  e = ValueError ∧ use_all_gpus self = true ∧
  truthy_list (use_multi_gpus self) = true.
Proof.
  split.
  - unfold prepare_multiprocess.
    destruct (max_num_workers_ self) as [w|] eqn:Hw;
      [destruct (cpu <? w) eqn:Hcpu|]; cbn;
      destruct (use_all_gpus self) eqn:Hall;
      destruct (truthy_list (use_multi_gpus self)) eqn:Hmulti;
      rewrite ?Hw; cbn; repeat case_match; cbn; intros; simplify_eq; done.
  - intros (-> & Hall & Hmulti). by apply prepare_multiprocess_conflict.
Qed.

(** Without a GPU mode the plan has the requested worker count cut down
    to the number of processors (or none, when none was requested), which
    never exceeds the number of processors; the GPU slots are left as they
    were; the only thing printed is the warning for a count that was cut. *)
Theorem cpu_only_plan cpu gpus avail check i07 self :
  use_all_gpus self = false → truthy_list (use_multi_gpus self) = false →
  ∃ self',
    prepare_multiprocess cpu gpus avail check i07 self =
      (clamp_warning cpu (max_num_workers_ self), Ok self') ∧
    max_num_workers self' = clamped cpu <$> max_num_workers_ self ∧
    available_gpu self' = available_gpu self ∧
    (∀ n, max_num_workers self' = Some n → n ≤ cpu).
Proof.
  intros Hall Hmulti. unfold prepare_multiprocess, clamp_warning, clamped.
  destruct (max_num_workers_ self) as [w|] eqn:Hw.
  - destruct (cpu <? w) eqn:Hcpu; cbn; rewrite Hall, Hmulti; cbn;
      rewrite ?Hw; (eexists; split; [done|]); cbn; rewrite Hcpu;
      (split_and!; [done..|]); intros n [= <-]; lia.
  - cbn. rewrite Hall, Hmulti, Hw. by eexists.
Qed.

Lemma cpu_only_plan_witness :
  ∃ self',
    prepare_multiprocess 4 4 example_gpus (λ _, true) example_int_times_07
      args_cpu_only = ([WarnMaxNumWorkers 16 4], Ok self') ∧
    max_num_workers self' = Some 4.
Proof.
  destruct (cpu_only_plan 4 4 example_gpus (λ _, true) example_int_times_07
              args_cpu_only eq_refl eq_refl) as (self' & Hplan & Hw & _).
  exists self'. split; [exact Hplan|exact Hw].
Defined.

(** With an explicit GPU list only, the plan succeeds.  Its GPU slots are
    the idle indices of the list, in the order of the list, cut to the
    worker count; the worker count is the number of idle indices, or the
    requested count (cut down to the number of processors) when that is
    smaller and not zero; there are as many slots as workers.  One warning
    is printed for each busy index, after the warning for a count that was
    cut. *)
Theorem explicit_gpu_list_plan cpu gpus avail check i07 self inds :
  use_all_gpus self = false → use_multi_gpus self = Some inds → inds ≠ [] →
  0 < cpu → (∀ w, max_num_workers_ self = Some w → 0 ≤ w) →
  ∃ self' n,
    prepare_multiprocess cpu gpus avail check i07 self =
      (clamp_warning cpu (max_num_workers_ self)
         ++ (WarnGpuBusy <$> busy_of check inds), Ok self') ∧
    max_num_workers self' = Some n ∧
    available_gpu self' = Some (take (Z.to_nat n) (idle_of check inds)) ∧
    n = (match max_num_workers_ self with
         | Some w => if w =? 0 then len (idle_of check inds)
                     else Z.min (clamped cpu w) (len (idle_of check inds))
         | None => len (idle_of check inds)
         end) ∧
    len (take (Z.to_nat n) (idle_of check inds)) = n.
Proof.
  intros Hall Hinds Hne Hcpu Hpos.
  assert (truthy_list (use_multi_gpus self) = true) as Hmulti.
  { rewrite Hinds. by destruct inds. }
  assert (∀ l : list Z, take (Z.to_nat (len l)) l = l) as Htake.
  { intros l. unfold len. rewrite Nat2Z.id. apply firstn_all. }
  assert (∀ (l : list Z) n, 0 ≤ n ≤ len l → len (take (Z.to_nat n) l) = n) as Hlen.
  { intros l n ?. unfold len in *. rewrite length_take. lia. }
  unfold prepare_multiprocess, clamp_warning, clamped.
  destruct (max_num_workers_ self) as [w|] eqn:Hw.
  - specialize (Hpos w eq_refl).
    destruct (cpu <? w) eqn:Hc; cbn; rewrite Hall, Hmulti, Hinds;
      cbn [default]; rewrite check_gpus_spec; cbn; rewrite ?Hw; cbn;
      unfold idle_of, busy_of.
    + rewrite (proj2 (Z.eqb_neq cpu 0)), (proj2 (Z.eqb_neq w 0)) by lia. cbn.
      destruct (len _ <? cpu) eqn:Hlt;
        [apply Z.ltb_lt in Hlt|apply Z.ltb_ge in Hlt];
        eexists _, _; (split; [done|]); cbn; (split; [done|]).
      * rewrite Z.min_r by lia. by rewrite Htake.
      * rewrite Z.min_l by lia. unfold slice_to.
        rewrite (proj2 (Z.leb_le 0 cpu)) by lia.
        split_and!; [done..|]. apply Hlen. lia.
    + destruct (w =? 0) eqn:Hw0; cbn.
      { eexists _, _. split; [done|]. cbn. by rewrite Htake. }
      destruct (len _ <? w) eqn:Hlt;
        [apply Z.ltb_lt in Hlt|apply Z.ltb_ge in Hlt];
        eexists _, _; (split; [done|]); cbn; (split; [done|]).
      * rewrite Z.min_r by lia. by rewrite Htake.
      * rewrite Z.min_l by lia. unfold slice_to.
        rewrite (proj2 (Z.leb_le 0 w)) by lia.
        split_and!; [done..|]. apply Hlen. lia.
  - cbn. rewrite Hall, Hmulti, Hinds. cbn [default].
    rewrite check_gpus_spec. cbn. rewrite Hw. cbn. unfold idle_of, busy_of.
    eexists _, _. split; [done|]. cbn. by rewrite Htake.
Qed.

(** The explicit list [0; 3] with the device 3 busy: one slot, one worker,
    one warning. *)
Lemma explicit_gpu_list_plan_witness :
  ∃ self',
    prepare_multiprocess 4 4 example_gpus only_gpu_0_idle example_int_times_07
      args_explicit_gpus = ([WarnGpuBusy 3], Ok self') ∧
    max_num_workers self' = Some 1 ∧
    available_gpu self' = Some [0].
Proof.
  destruct (explicit_gpu_list_plan 4 4 example_gpus only_gpu_0_idle
              example_int_times_07 args_explicit_gpus [0; 3]
              eq_refl eq_refl) as (self' & n & Hplan & Hw & Hg & -> & _).
  - done.
  - done.
  - intros w [= <-]. done.
  - exists self'. split; [exact Hplan|]. split; [exact Hw|exact Hg].
Defined.

Lemma idle_of_all_busy check (inds : list Z) :
  (∀ ind, ind ∈ inds → check ind = false) → idle_of check inds = [].
Proof.
  intros Hbusy. unfold idle_of. induction inds as [|ind inds IH]; [done|].
  rewrite filter_cons, decide_False.
  - apply IH. intros ??. apply Hbusy. by right.
  - rewrite Hbusy by (by left). done.
Qed.

Lemma prepare_multiprocess_all_busy cpu gpus avail check i07 self inds :
  use_all_gpus self = false → use_multi_gpus self = Some inds → inds ≠ [] →
  idle_of check inds = [] →
  ∃ self' n, (prepare_multiprocess cpu gpus avail check i07 self).2 = Ok self' ∧
             max_num_workers self' = Some n ∧ n < 1 ∧
             available_gpu self' = Some [].
Proof.
  intros Hall Hinds Hne Hbusy.
  assert (truthy_list (use_multi_gpus self) = true) as Hmulti.
  { rewrite Hinds. by destruct inds. }
  unfold prepare_multiprocess.
  destruct (max_num_workers_ self) as [w|] eqn:Hw;
    [destruct (cpu <? w) eqn:Hc|]; cbn; rewrite Hall, Hmulti, Hinds;
    cbn [default id]; rewrite check_gpus_spec, Hbusy; cbn; rewrite ?Hw; cbn.
  - destruct (cpu =? 0) eqn:H0; cbn;
      [|apply Z.eqb_neq in H0; change (len []) with 0;
        destruct (0 <? cpu) eqn:Hlt;
        [apply Z.ltb_lt in Hlt|apply Z.ltb_ge in Hlt]];
      eexists _, _; (split; [done|]); cbn; (split; [done|]);
      unfold len, slice_to in *; cbn in *; (split; [lia|]);
      try done. rewrite !take_nil. by destruct (0 <=? cpu).
  - destruct (w =? 0) eqn:H0; cbn;
      [|apply Z.eqb_neq in H0; change (len []) with 0;
        destruct (0 <? w) eqn:Hlt;
        [apply Z.ltb_lt in Hlt|apply Z.ltb_ge in Hlt]];
      eexists _, _; (split; [done|]); cbn; (split; [done|]);
      unfold len, slice_to in *; cbn in *; (split; [lia|]);
      try done. rewrite !take_nil. by destruct (0 <=? w).
  - eexists _, _. split; [done|]. cbn. split; [done|]. by split.
Qed.

(** When every index of the explicit GPU list is busy, the planning still
    succeeds, with no slot and a worker count below one; the run then fails
    with [ValueError] when it creates the pool, and submits no job. *)
Theorem all_listed_gpus_busy
    cpu gpus avail check i07 te cv rb args logger gen proc completion disk
    inds :
  multiprocessing args = true → use_all_gpus args = false →
  use_multi_gpus args = Some inds → inds ≠ [] →
  (∀ ind, ind ∈ inds → check ind = false) →
  (∃ self' n, (init cpu gpus avail check i07 args).2 = Ok self' ∧
              max_num_workers self' = Some n ∧ n < 1 ∧
              available_gpu self' = Some []) ∧
  experiment cpu gpus avail check i07 te cv rb args logger gen proc completion
    disk = mkReport [] (Ends (Raise ValueError)).
Proof.
  intros Hmp Hall Hinds Hne Hbusy%idle_of_all_busy.
  assert (∃ self' n, (init cpu gpus avail check i07 args).2 = Ok self' ∧
              max_num_workers self' = Some n ∧ n < 1 ∧
              available_gpu self' = Some []) as Hplan.
  { unfold init. cbn. rewrite Hmp.
    by apply (prepare_multiprocess_all_busy _ _ _ _ _ _ inds). }
  split; [done|]. destruct Hplan as (self' & n & Hinit & Hn & Hlt & _).
  unfold experiment. destruct (init cpu gpus avail check i07 args) as [out r].
  cbn in Hinit. subst r. unfold run, Pool. rewrite Hn.
  by rewrite (proj2 (Z.ltb_lt n 1)).
Qed.

Lemma all_listed_gpus_busy_witness :
  experiment 4 4 example_gpus (λ _, false) example_int_times_07
    (example_trainer scores_A) example_cv example_rebuilds args_explicit_gpus
    example_logger jobs_A example_process [0; 1; 2]%nat example_disk
  = mkReport [] (Ends (Raise ValueError)).
Proof.
  refine (proj2 (all_listed_gpus_busy 4 4 example_gpus (λ _, false)
                   example_int_times_07 (example_trainer scores_A) example_cv
                   example_rebuilds args_explicit_gpus example_logger jobs_A
                   example_process [0; 1; 2]%nat example_disk [0; 3]
                   eq_refl eq_refl eq_refl _ _)).
  - done.
  - done.
Defined.

(** ** The worker: errors and the environment *)

(** [train_pipe] raises in two cases only: [ConfigError] when a GPU job
    comes without a GPU index, and then the environment is left as it was;
    or the exception of the training code, raised in an environment where
    the device variable has been set, which is the environment that the
    worker keeps. *)
Theorem train_pipe_raises_iff te cv environ t_start t_end args environ' e :
  train_pipe te cv environ t_start t_end args = (environ', Raise e) ↔
  (gpu args = true ∧ gpu_ind args = None ∧ e = ConfigError ∧ environ' = environ) ∨
  (∃ v, (if gpu args then pretty <$> gpu_ind args else Some ""%string) = Some v ∧
        environ' = <[CUDA_VISIBLE_DEVICES := v]> environ ∧
        if arg_cross_validation args
        then cv environ' (pipe_config args) (arg_k_fold args) = Raise e
        else te environ' (pipe_config args) = Raise e).
Proof.
  unfold train_pipe. split.
  - destruct (gpu args) eqn:Hgpu; [destruct (gpu_ind args) as [ind|] eqn:Hind|].
    + destruct (arg_cross_validation args) eqn:Hcv.
      * destruct (cv _ _ _) eqn:Hc; cbn; intros [= <- <-].
        right. exists (pretty ind). by rewrite Hc.
      * destruct (te _ _) eqn:Ht; cbn; intros [= <- <-].
        right. exists (pretty ind). by rewrite Ht.
    + intros [= <- <-]. by left.
    + destruct (arg_cross_validation args) eqn:Hcv.
      * destruct (cv _ _ _) eqn:Hc; cbn; intros [= <- <-].
        right. exists ""%string. by rewrite Hc.
      * destruct (te _ _) eqn:Ht; cbn; intros [= <- <-].
        right. exists ""%string. by rewrite Ht.
  - intros [(-> & -> & -> & ->)|(v & Hv & -> & Hraise)]; [done|].
    assert ((if gpu args
             then match gpu_ind args with
                  | Some ind => Ok (pretty ind)
                  | None => Raise ConfigError
                  end
             else Ok ""%string) = Ok v) as ->.
    { destruct (gpu args); [|congruence].
      destruct (gpu_ind args); cbn in Hv; congruence. }
    destruct (arg_cross_validation args); by rewrite Hraise.
Qed.

(** What the device variable held before a job does not matter: a job run
    in a pool process that an earlier job left with some device visible
    returns the same result, and leaves the same environment, as in a
    process where the variable was never set. *)
Theorem train_pipe_overrides_device te cv environ t_start t_end args stale :
  gpu args = false ∨ is_Some (gpu_ind args) →
  train_pipe te cv (<[CUDA_VISIBLE_DEVICES := stale]> environ) t_start t_end args
  = train_pipe te cv (delete CUDA_VISIBLE_DEVICES environ) t_start t_end args.
Proof.
  intros Hok. unfold train_pipe.
  destruct (if gpu args then _ else _) as [v|] eqn:Hv.
  - by rewrite insert_insert_eq, insert_delete_eq.
  - destruct (gpu args); [|done]. destruct Hok as [?|[ind Hind]]; [done|].
    by rewrite Hind in Hv.
Qed.

Lemma train_pipe_overrides_device_witness :
  train_pipe (example_trainer scores_A) example_cv
    (<[CUDA_VISIBLE_DEVICES := "3"%string]> ∅) (score 0 1) (score 1 1)
    (mkArgs (example_config "A" 0) false 5 false None)
  = train_pipe (example_trainer scores_A) example_cv
      (delete CUDA_VISIBLE_DEVICES ∅) (score 0 1) (score 1 1)
      (mkArgs (example_config "A" 0) false 5 false None).
Proof.
  apply (train_pipe_overrides_device (example_trainer scores_A) example_cv ∅
           (score 0 1) (score 1 1)
           (mkArgs (example_config "A" 0) false 5 false None) "3").
  by left.
Defined.

(** ** The round-robin generator *)

Lemma gpu_gen_from_Ok self slots : available_gpu self = Some slots → slots ≠ [] →
  ∀ gen i,
    gpu_gen_from self i gen =
      Ok (imap (λ k pipe_conf,
                  mkArgs pipe_conf (cross_validation self) (k_fold self) true
                    (Some (Z.of_nat (i + k) `mod` len slots))) gen).
Proof.
  intros Hs Hne gen. induction gen as [|c gen IH]; intros i; [done|].
  cbn [gpu_gen_from]. rewrite (gpu_gen_item_mod _ _ _ slots Hs Hne). cbn.
  rewrite IH. cbn. rewrite Nat.add_0_r. do 2 f_equal.
  apply imap_ext. intros k x _. cbn. by rewrite Nat.add_succ_r.
Qed.

(** With at least one GPU slot, [gpu_gen] yields one task per generated
    configuration, in the order of the generator and with the
    configuration unchanged; each is a GPU task whose index is the
    remainder of its position by the number of slots, hence a position in
    the slot list. *)
Theorem gpu_gen_tasks self slots gen :
  available_gpu self = Some slots → slots ≠ [] →
  ∃ tasks,
    gpu_gen self gen = Ok tasks ∧ length tasks = length gen ∧
    ∀ i c, gen !! i = Some c →
      ∃ j, tasks !! i =
             Some (mkArgs c (cross_validation self) (k_fold self) true (Some j)) ∧
           j = Z.of_nat i `mod` len slots ∧ 0 ≤ j < len slots.
Proof.
  intros Hs Hne. unfold gpu_gen. rewrite (gpu_gen_from_Ok _ _ Hs Hne).
  eexists. split; [done|]. split; [by rewrite length_imap|].
  intros i c Hc. eexists. rewrite list_lookup_imap, Hc. cbn.
  split; [done|]. split; [done|]. apply Z.mod_pos_bound.
  unfold len. destruct slots; [done|cbn; lia].
Qed.

Lemma gpu_gen_tasks_witness :
  ∃ tasks,
    gpu_gen manager_gpus_2_5 jobs_4 = Ok tasks ∧ length tasks = 4%nat.
Proof.
  destruct (gpu_gen_tasks manager_gpus_2_5 [2; 5] jobs_4 eq_refl)
    as (tasks & Hgen & Hlen & _); [done|].
  exists tasks. split; [exact Hgen|exact Hlen].
Defined.

(** Two jobs whose positions are less than the number of slots apart never
    get the same index, and two jobs exactly that far apart get the same. *)
Theorem gpu_gen_window self slots gen tasks i i' a a' :
  available_gpu self = Some slots → gpu_gen self gen = Ok tasks →
  tasks !! i = Some a → tasks !! i' = Some a' →
  ((i < i')%nat → (Z.of_nat i' - Z.of_nat i < len slots) →
     gpu_ind a ≠ gpu_ind a') ∧
  (Z.of_nat i' = Z.of_nat i + len slots → gpu_ind a = gpu_ind a').
Proof.
  intros Hs Hgen Ha Ha'.
  assert (slots ≠ []) as Hne.
  { intros ->. unfold gpu_gen in Hgen. destruct gen as [|c gen].
    - injection Hgen as <-. by rewrite lookup_nil in Ha.
    - cbn in Hgen. unfold gpu_gen_item in Hgen. by rewrite Hs in Hgen. }
  assert (0 < len slots) as Hn by (unfold len; destruct slots; [done|cbn; lia]).
  unfold gpu_gen in Hgen. rewrite (gpu_gen_from_Ok _ _ Hs Hne) in Hgen.
  injection Hgen as <-. rewrite list_lookup_imap in Ha, Ha'.
  destruct (gen !! i) as [c|]; [|done]. destruct (gen !! i') as [c'|]; [|done].
  cbn in Ha, Ha'. injection Ha as <-. injection Ha' as <-. cbn. split.
  - intros Hlt Hwin [= Heq].
    assert ((Z.of_nat i' - Z.of_nat i) `mod` len slots = 0) as H0.
    { rewrite Zminus_mod, Heq, Z.sub_diag. by apply Z.mod_0_l, Z.neq_sym, Z.lt_neq. }
    rewrite Z.mod_small in H0 by lia. lia.
  - intros ->. f_equal.
    replace (Z.of_nat i + len slots) with (Z.of_nat i + 1 * len slots) by lia.
    by rewrite Z.mod_add by lia.
Qed.

Lemma gpu_gen_window_witness :
  ∃ tasks a a',
    gpu_gen manager_gpus_2_5 jobs_4 = Ok tasks ∧
    tasks !! 1%nat = Some a ∧ tasks !! 2%nat = Some a' ∧
    gpu_ind a ≠ gpu_ind a'.
Proof.
  eexists _, _, _. split; [reflexivity|]. split; [reflexivity|].
  split; [reflexivity|].
  refine (proj1 (gpu_gen_window manager_gpus_2_5 [2; 5] jobs_4 _ 1 2 _ _
                   eq_refl eq_refl eq_refl eq_refl) _ _);
    unfold len; cbn; lia.
Defined.

(** [gpu_gen] raises exactly when there is a configuration to place and
    no slot to place it on: [TypeError] while [available_gpu] is [None]
    (the length of [None] is asked for), [ZeroDivisionError] when it is the
    empty list.  With nothing to place it raises in neither case. *)
Theorem gpu_gen_raises_iff self gen e :
  gpu_gen self gen = Raise e ↔
  gen ≠ [] ∧
  ((available_gpu self = None ∧ e = TypeError) ∨
   (available_gpu self = Some [] ∧ e = ZeroDivisionError)).
Proof.
  unfold gpu_gen. split.
  - destruct (available_gpu self) as [[|s slots]|] eqn:Ha.
    + destruct gen as [|c gen]; [done|]. cbn. unfold gpu_gen_item.
      rewrite Ha. cbn. intros [= <-]. split; [done|by right].
    + by rewrite (gpu_gen_from_Ok _ (s :: slots)).
    + destruct gen as [|c gen]; [done|]. cbn. unfold gpu_gen_item.
      rewrite Ha. cbn. intros [= <-]. split; [done|by left].
  - intros (Hne & [[Ha ->]|[Ha ->]]); (destruct gen as [|c gen]; [done|]);
      cbn; unfold gpu_gen_item; by rewrite Ha.
Qed.

(** ** Saving the configurations *)

Lemma pipe_name_inj k k' : pipe_name (Some k) = pipe_name (Some k') → k = k'.
Proof.
  unfold pipe_name. intros H. apply (inj (String.app "pipe_")) in H.
  by apply (inj pretty) in H.
Qed.

Lemma save_config_spec disk conf dataset i :
  (is_pipe_dir disk dataset (i + 1) = true ↔
   ∃ disk', save_config disk conf dataset i = Ok disk') ∧
  ∀ disk', save_config disk conf dataset i = Ok disk' →
    stored_config disk' dataset (i + 1) = Some (ConfigJson conf) ∧
    (∀ d k, (d, k) ≠ (dataset, (i + 1)%nat) →
            stored_config disk' d k = stored_config disk d k) ∧
    (∀ d k, is_pipe_dir disk' d k = is_pipe_dir disk d k).
Proof.
  unfold save_config, is_pipe_dir, isdir_in, stored_config.
  destruct (disk !! dataset) as [[c|entries]|] eqn:Hd; cbn;
    try (split; [split; [done|by intros [? ?]]|done]).
  destruct (entries !! pipe_name (Some (i + 1)%nat)) as [[c|files]|] eqn:Hp; cbn;
    try (split; [split; [done|by intros [? ?]]|done]).
  split; [split; [by eexists|done]|]. intros disk' [= <-]. split_and!.
  - by rewrite !lookup_insert_eq.
  - intros d k Hne. destruct (decide (d = dataset)) as [->|Hd'].
    + rewrite lookup_insert_eq, Hd.
      rewrite lookup_insert_ne; [done|].
      intros Heq%pipe_name_inj. congruence.
    + by rewrite lookup_insert_ne.
  - intros d k. destruct (decide (d = dataset)) as [->|Hd'].
    + rewrite lookup_insert_eq, Hd.
      destruct (decide (pipe_name (Some (i + 1)%nat) = pipe_name (Some k)))
        as [<-|Hk].
      * by rewrite lookup_insert_eq, Hp.
      * by rewrite lookup_insert_ne.
    + by rewrite lookup_insert_ne.
Qed.

Lemma update_logger_body_disk i res st st' :
  update_logger_body i res st = Ok st' →
  cross_validation (agg_self st') = cross_validation (agg_self st) ∧
  ∃ pipe,
    res !! "pipe_conf"%string = Some (VConfig pipe) ∧
    if cross_validation (agg_self st) then agg_disk st' = agg_disk st
    else save_config (agg_disk st) pipe (data_path pipe) i = Ok (agg_disk st').
Proof.
  unfold update_logger_body. intros H.
  apply bind_Ok in H as (pipe & Hpipe & H).
  apply bind_Ok in Hpipe as (v & Hv%getitem_Ok & ->%as_config_Ok).
  apply bind_Ok in H as (m & _ & H).
  apply bind_Ok in H as ([self logger] & Hfix & H).
  apply bind_Ok in H as (pipe_time & _ & H).
  apply bind_Ok in H as (disk & Hdisk & H).
  apply bind_Ok in H as (dr & _ & [= <-]); cbn.
  assert (cross_validation self = cross_validation (agg_self st)) as Hcv.
  { destruct (i =? 0)%nat.
    - apply bind_Ok in Hfix as (tm & _ & [= <- _]). done.
    - by injection Hfix as <- _. }
  split; [done|]. exists pipe. split; [done|]. rewrite Hcv in Hdisk.
  destruct (cross_validation (agg_self st)); [by injection Hdisk|done].
Qed.

Lemma update_logger_loop_disk rs : ∀ i st st',
  update_logger_loop i rs st = Ok st' →
  if cross_validation (agg_self st) then agg_disk st' = agg_disk st
  else
    (∀ j res pipe,
       rs !! j = Some (Ok res) →
       res !! "pipe_conf"%string = Some (VConfig pipe) →
       stored_config (agg_disk st') (data_path pipe) (i + j + 1)
         = Some (ConfigJson pipe) ∧
       is_pipe_dir (agg_disk st) (data_path pipe) (i + j + 1) = true) ∧
    (∀ d k, (k ≤ i)%nat →
            stored_config (agg_disk st') d k = stored_config (agg_disk st) d k) ∧
    (∀ d k, is_pipe_dir (agg_disk st') d k = is_pipe_dir (agg_disk st) d k).
Proof.
  induction rs as [|r rs IH]; intros i st st' H; cbn in H.
  { injection H as <-. destruct (cross_validation (agg_self st)); [done|].
    split_and!; [|done..]. by intros [|?] ???. }
  apply bind_Ok in H as (res & -> & H).
  apply bind_Ok in H as (st1 & Hbody & H).
  apply update_logger_body_disk in Hbody as (Hcv & pipe0 & Hp0 & Hsave).
  apply IH in H. rewrite Hcv in H.
  destruct (cross_validation (agg_self st)); [congruence|].
  destruct H as (Hstored & Hold & Hdirs).
  destruct (save_config_spec (agg_disk st) pipe0 (data_path pipe0) i)
    as [Hiff Hrt].
  destruct (Hrt _ Hsave) as (Hback & Hframe & Hsame).
  split_and!.
  - intros [|j] res' pipe Hj Hp.
    + injection Hj as <-. assert (pipe = pipe0) as -> by congruence.
      rewrite Nat.add_0_r. split.
      * rewrite Hold by lia. done.
      * apply Hiff. by eexists.
    + cbn in Hj. destruct (Hstored j res' pipe Hj Hp) as [Hs Hd].
      replace (i + S j + 1)%nat with (S i + j + 1)%nat by lia.
      split; [done|]. by rewrite <-Hsame.
  - intros d k Hk. rewrite Hold by lia. apply Hframe. intros [= _ ->]. lia.
  - intros d k. by rewrite Hdirs.
Qed.

(** With cross-validation on, [update_logger] leaves the checkpoint tree as
    it is.  Without it, a successful [update_logger] has stored the
    configuration of the result ingested at position [j] in
    [<dataset>/pipe_<j+1>/config.json], a directory that was there before
    the loop; the loop creates and removes no pipeline directory. *)
Theorem update_logger_saves_configs self logger disk rs st :
  update_logger self logger disk rs = Ok st →
  (cross_validation self = true → agg_disk st = disk) ∧
  (cross_validation self = false →
     (∀ j res pipe,
        rs !! j = Some (Ok res) →
        res !! "pipe_conf"%string = Some (VConfig pipe) →
        stored_config (agg_disk st) (data_path pipe) (j + 1) = Some (ConfigJson pipe) ∧
        is_pipe_dir disk (data_path pipe) (j + 1) = true) ∧
     (∀ d k, is_pipe_dir (agg_disk st) d k = is_pipe_dir disk d k)).
Proof.
  intros H%update_logger_loop_disk. cbn in H.
  destruct (cross_validation self); split; try done.
  - intros _. by destruct H as (? & _ & ?).
Qed.

(** In the scenario of dataset "A" with the arrival order 2, 0, 1, the
    configuration stored in [pipe_1] is the one of the job submitted at
    index 2. *)
Lemma update_logger_saves_configs_witness :
  ∃ st,
    update_logger example_manager example_logger example_disk
      (results_A [2; 0; 1]%nat) = Ok st ∧
    stored_config (agg_disk st) "A" 1 = Some (ConfigJson (example_config "A" 2)).
Proof.
  destruct (update_logger example_manager example_logger example_disk
              (results_A [2; 0; 1]%nat)) as [st|] eqn:Hst;
    [|by vm_compute in Hst].
  exists st. split; [done|].
  destruct (update_logger_saves_configs _ _ _ _ _ Hst) as [_ Hsaved].
  destruct (Hsaved eq_refl) as [Hcfg _].
  refine (proj1 (Hcfg 0%nat _ (example_config "A" 2) _ _)).
  - vm_compute; reflexivity.
  - vm_compute; reflexivity.
Defined.

(** ** The aggregation: failures and edge cases *)

Lemma update_logger_loop_raise rs1 e rs2 : ∀ i st,
  update_logger_loop i (rs1 ++ Raise e :: rs2) st =
    match update_logger_loop i rs1 st with
    | Ok _ => Raise e
    | Raise e' => Raise e'
    end.
Proof.
  induction rs1 as [|r rs1 IH]; intros i st; [done|]. cbn.
  destruct r as [res|e']; cbn; [|done].
  destruct (update_logger_body i res st) as [st1|e']; cbn; [|done].
  apply IH.
Qed.

(** The loop stops at the first failed job with that job's exception,
    unless the ingestion of an earlier result has already raised; no later
    result is ingested. *)
Theorem update_logger_failed_job rs1 e rs2 : ∀ i st,
  update_logger_loop i (rs1 ++ Raise e :: rs2) st =
    match update_logger_loop i rs1 st with
    | Ok _ => Raise e
    | Raise e' => Raise e'
    end.
Proof. apply update_logger_loop_raise. Qed.

Lemma imap_unordered_nil te cv proc completion :
  imap_unordered te cv proc [] completion = [].
Proof.
  unfold imap_unordered. induction completion as [|k l IH]; [done|]. cbn.
  by rewrite lookup_nil.
Qed.

Lemma workers_join_spec rb (rs : list (result job_result)) :
  workers_join rb rs = true ↔ ∀ e, Raise e ∈ rs → rb e = true.
Proof.
  unfold workers_join. rewrite forallb_forall. split.
  - intros H e He. by apply (H (Raise e)), list_elem_of_In.
  - intros H [res|e] Hin; [done|]. by apply H, list_elem_of_In.
Qed.

(** A run in which some job has failed does not reach the retention.  When
    the parent cannot rebuild the exception of a failed job, the run never
    comes back from joining the pool.  When it can rebuild the exceptions
    of all the failed jobs, the run ends with the exception that the
    ingestion raises. *)
Corollary run_with_failed_job
    cpu te cv rb self logger gen proc completion disk e :
  Raise e ∈ imap_unordered te cv proc
              (submitted (run cpu te cv rb self logger gen proc completion disk))
              completion →
  returns (outcome (run cpu te cv rb self logger gen proc completion disk))
    = false ∧
  (rb e = false →
     outcome (run cpu te cv rb self logger gen proc completion disk) = Hangs) ∧
  ((∀ e', Raise e' ∈ imap_unordered te cv proc
                       (submitted (run cpu te cv rb self logger gen proc
                                     completion disk))
                       completion → rb e' = true) →
     ∃ e',
       update_logger self logger disk
         (imap_unordered te cv proc
            (submitted (run cpu te cv rb self logger gen proc completion disk))
            completion) = Raise e' ∧
       outcome (run cpu te cv rb self logger gen proc completion disk)
         = Ends (Raise e')).
Proof.
  unfold run. destruct (Pool cpu (max_num_workers self)) as [n|e0]; cbn;
    [|by rewrite imap_unordered_nil; intros ?%elem_of_nil].
  destruct (match available_gpu self with Some _ => _ | None => _ end)
    as [tasks|e0]; cbn; [|by rewrite imap_unordered_nil; intros ?%elem_of_nil].
  intros Hin.
  assert (∃ e', update_logger self logger disk
                  (imap_unordered te cv proc tasks completion) = Raise e')
    as [e' He'].
  { apply list_elem_of_split in Hin as (rs1 & rs2 & ->).
    unfold update_logger. rewrite update_logger_loop_raise.
    destruct (update_logger_loop 0 rs1 _); by eexists. }
  destruct (workers_join rb _) eqn:Hjoin.
  - rewrite He'. cbn. split; [done|]. split; [|by exists e'].
    intros Hrb. rewrite workers_join_spec in Hjoin.
    by rewrite (Hjoin e Hin) in Hrb.
  - split; [done|]. split; [done|]. intros Hall.
    apply workers_join_spec in Hall. congruence.
Qed.

(** When no target metric is given and the first result's configuration
    declares no metric, [update_logger] raises [IndexError], whatever the
    other settings and the rest of the results. *)
Theorem update_logger_no_metric self logger disk res rs pipe m :
  target_metric self = None →
  res !! "pipe_conf"%string = Some (VConfig pipe) →
  res !! "results"%string = Some (VMetrics m) →
  train_metrics pipe = [] →
  update_logger self logger disk (Ok res :: rs) = Raise IndexError.
Proof.
  intros Htm Hp Hm Hnil. unfold update_logger. cbn.
  unfold update_logger_body, getitem. rewrite Hp, Hm. cbn.
  by rewrite Htm, Hnil.
Qed.

(** With best tracking on, a target metric that the split read does not
    have makes the ingestion of the first result raise [KeyError] for that
    name, once the configuration has been saved; the target metric is the
    given one, else the first declared. *)
Theorem update_logger_missing_target self logger disk res rs pipe m t tm split :
  save_best self = true →
  res !! "pipe_conf"%string = Some (VConfig pipe) →
  res !! "results"%string = Some (VMetrics m) →
  res !! "pipe_time"%string = Some (VFloat t) →
  fixes_target (target_metric self) pipe tm →
  cross_validation self = true ∨ is_pipe_dir disk (data_path pipe) 1 = true →
  m !! "test"%string = Some split ∨
    (m !! "test"%string = None ∧ m !! "valid"%string = Some split) →
  split !! tm = None →
  update_logger self logger disk (Ok res :: rs) = Raise (KeyError tm).
Proof.
  intros Hsb Hp Hm Ht Hfix Hdisk Hsplit Hmiss. unfold update_logger. cbn.
  unfold update_logger_body, getitem. rewrite Hp, Hm, Ht. cbn.
  assert (match target_metric self with
          | Some t => Ok t
          | None => match train_metrics pipe with
                    | m :: _ => Ok m
                    | [] => Raise IndexError
                    end
          end = Ok tm) as ->.
  { unfold fixes_target in Hfix. destruct (target_metric self); [by subst|].
    destruct (train_metrics pipe); [done|]. cbn in Hfix. congruence. }
  cbn. rewrite Hsb.
  assert (∃ disk', (if cross_validation self then Ok disk
                    else save_config disk pipe (data_path pipe) 0) = Ok disk')
    as [disk' ->].
  { destruct (cross_validation self); [by eexists|].
    destruct Hdisk as [?|Hdir]; [done|].
    by apply (save_config_spec disk pipe (data_path pipe) 0). }
  cbn. unfold track_best, target_score, getitem. cbn.
  destruct Hsplit as [->|[-> ->]]; cbn; by rewrite Hmiss.
Qed.

Lemma update_logger_missing_target_witness :
  update_logger (set_target_metric (Some "roc_auc"%string) example_manager)
    example_logger example_disk (Ok first_result_A :: results_A [1; 2]%nat)
  = Raise (KeyError "roc_auc").
Proof.
  apply (update_logger_missing_target _ _ _ _ _ (example_config "A" 0)
           {[ "test"%string := {[ "accuracy"%string := score 5 10 ]} ]}
           (score 1 1 - score 0 1)%Qc "roc_auc"
           {[ "accuracy"%string := score 5 10 ]}).
  - reflexivity.
  - reflexivity.
  - reflexivity.
  - reflexivity.
  - reflexivity.
  - right. reflexivity.
  - left. reflexivity.
  - reflexivity.
Defined.

Lemma update_logger_no_metric_witness :
  update_logger example_manager example_logger example_disk
    [Ok {[ "pipe_conf"%string := VConfig (mkConfig "A" [] None []);
           "results"%string := VMetrics ∅ ]}]
  = Raise IndexError.
Proof.
  by apply (update_logger_no_metric _ _ _ _ _ (mkConfig "A" [] None []) ∅).
Defined.

(** With no configuration to run, a run with a valid pool submits nothing,
    records no dataset and leaves the checkpoint tree as it is, in the CPU
    mode and in the GPU modes alike. *)
Theorem run_without_pipelines cpu te cv rb self logger proc completion disk :
  is_Ok (Pool cpu (max_num_workers self)) = true →
  run cpu te cv rb self logger [] proc completion disk =
    mkReport [] (Ends (Ok (∅, (disk, None)))).
Proof.
  intros Hpool. unfold run. destruct (Pool cpu _); [|done].
  destruct (available_gpu self); cbn; rewrite imap_unordered_nil; cbn;
    unfold retain; by destruct (save_best self).
Qed.

Lemma run_without_pipelines_witness :
  run 8 (example_trainer scores_A) example_cv example_rebuilds example_manager
    example_logger [] example_process [0; 1]%nat example_disk
  = mkReport [] (Ends (Ok (∅, (example_disk, None)))).
Proof. by apply run_without_pipelines. Defined.

(** With best tracking on, [dataset_res] has an entry for exactly the
    datasets of the ingested results; with best tracking off it stays
    empty. *)
Theorem dataset_res_domain self logger disk rs st :
  update_logger self logger disk rs = Ok st →
  (save_best self = true →
     ∀ d, is_Some (dataset_res st !! d) ↔
          ∃ j res pipe, rs !! j = Some (Ok res) ∧
                        res !! "pipe_conf"%string = Some (VConfig pipe) ∧
                        data_path pipe = d) ∧
  (save_best self = false → dataset_res st = ∅).
Proof.
  intros H. split.
  - intros Hsb d. destruct rs as [|r rs].
    { injection H as <-. cbn. rewrite lookup_empty. split.
      - by intros [? ?].
      - by intros ([|?] & ? & ? & ? & _). }
    destruct (update_logger_obs _ _ _ _ _ _ Hsb H)
      as (res0 & pipe0 & tm & obs & _ & _ & _ & _ & Hobs & Hdr).
    rewrite Hdr. pose proof (tracks_fold_0 obs d) as Hinv. split.
    + intros [e He]. rewrite He in Hinv. destruct Hinv as ((j & s & Hj) & _).
      destruct (result_of_obs _ _ _ Hobs _ _ _ Hj)
        as (r' & Hr' & [res pipe m -> Hp Hd _ _]).
      by exists j, res, pipe.
    + intros (j & res & pipe & Hj & Hp & Hd).
      destruct (Forall2_lookup_l _ _ _ _ _ Hobs Hj) as ([d' s] & Ho & Hobs').
      cbn in Hobs'. destruct Hobs' as [res' pipe' m' [= <-] Hp' Hd' _ _].
      assert (d' = d) as -> by congruence.
      destruct (fold_best 0 obs ∅ !! d) as [e|]; [by eexists|].
      by destruct (Hinv j s).
  - intros Hsb. unfold update_logger in H.
    enough (∀ rs i st0 st, save_best (agg_self st0) = false →
              update_logger_loop i rs st0 = Ok st →
              dataset_res st = dataset_res st0) as Hloop
      by (by rewrite (Hloop rs 0%nat (mkAgg self logger disk ∅) st Hsb H)).
    clear. induction rs as [|r rs IH]; intros i st0 st Hsb H; cbn in H.
    { by injection H as <-. }
    apply bind_Ok in H as (res & -> & H).
    apply bind_Ok in H as (st1 & Hbody & H).
    apply update_logger_body_inv in Hbody as (pipe & m & _ & _ & Hself & Hdr).
    rewrite Hsb in Hdr. rewrite <-Hdr. refine (IH _ _ _ _ H).
    destruct i; [destruct Hself as (? & _ & -> & _)|rewrite Hself]; done.
Qed.

Lemma dataset_res_domain_witness :
  ∃ st,
    update_logger example_manager example_logger example_disk
      (results_A [2; 0; 1]%nat) = Ok st ∧
    is_Some (dataset_res st !! "A"%string).
Proof.
  destruct (update_logger example_manager example_logger example_disk
              (results_A [2; 0; 1]%nat)) as [st|] eqn:Hst;
    [|by vm_compute in Hst].
  exists st. split; [done|].
  destruct (dataset_res_domain _ _ _ _ _ Hst) as [Hdom _].
  apply (Hdom eq_refl). exists 1%nat, first_result_A, (example_config "A" 0).
  split; [vm_compute; reflexivity|]. split; reflexivity.
Defined.

(** ** The retention: what a failure leaves *)

Lemma retain_file_entries bi name bd f disk src dst e :
  name ≠ bd →
  disk !! name = Some (Dir src) → disk !! bd = Some (Dir dst) →
  src !! f = Some e →
  ∃ disk' o src' dst',
    retain_file bi name bd f disk = (disk', o) ∧
    disk' !! name = Some (Dir src') ∧ disk' !! bd = Some (Dir dst') ∧
    (∀ x, x ≠ name → x ≠ bd → disk' !! x = disk !! x) ∧
    (∀ g, g ≠ f → src' !! g = src !! g ∧ dst' !! g = dst !! g) ∧
    (src' !! f = Some e ∨ dst' !! f = Some e).
Proof.
  intros Hne Hsrc Hdst He.
  assert (∀ o : option exn, ∃ disk' o' src' dst',
            (disk, o) = (disk', o') ∧
            disk' !! name = Some (Dir src') ∧ disk' !! bd = Some (Dir dst') ∧
            (∀ x, x ≠ name → x ≠ bd → disk' !! x = disk !! x) ∧
            (∀ g, g ≠ f → src' !! g = src !! g ∧ dst' !! g = dst !! g) ∧
            (src' !! f = Some e ∨ dst' !! f = Some e)) as Hsame.
  { intros o. exists disk, o, src, dst. split_and!; auto. }
  assert (∀ dst0, (∀ g, g ≠ f → dst0 !! g = dst !! g) → dst0 !! f = None →
            ∀ disk0, disk0 !! name = Some (Dir src) →
                     disk0 !! bd = Some (Dir dst0) →
                     (∀ x, x ≠ name → x ≠ bd → disk0 !! x = disk !! x) →
            ∃ disk' o' src' dst',
              shutil_move disk0 name f bd = (disk', o') ∧
              disk' !! name = Some (Dir src') ∧ disk' !! bd = Some (Dir dst') ∧
              (∀ x, x ≠ name → x ≠ bd → disk' !! x = disk !! x) ∧
              (∀ g, g ≠ f → src' !! g = src !! g ∧ dst' !! g = dst !! g) ∧
              (src' !! f = Some e ∨ dst' !! f = Some e)) as Hmove.
  { intros dst0 Hd0 Hf0 disk0 Hs0 Hb0 Hfr0. unfold shutil_move.
    rewrite Hs0, Hb0, He, Hf0.
    eexists _, _, (delete f src), (<[f:=e]> dst0). split; [done|].
    rewrite lookup_insert_ne, !lookup_insert_eq by done. split_and!; [done..| | |].
    - intros x ??. rewrite !lookup_insert_ne by done. by apply Hfr0.
    - intros g ?. rewrite lookup_delete_ne, lookup_insert_ne by done. auto.
    - by right. }
  unfold retain_file, isfile_in, isdir_in. rewrite Hdst.
  destruct (String.prefix "pipe" f); cbn.
  - case_bool_decide; [|apply Hsame].
    destruct (dst !! f) as [[c|fs]|] eqn:Hf.
    + unfold shutil_move. rewrite Hsrc, Hdst, He, Hf. apply Hsame.
    + unfold rmtree_in. rewrite Hdst, Hf.
      apply (Hmove (delete f dst)).
      * intros g ?. by rewrite lookup_delete_ne.
      * apply lookup_delete_eq.
      * by rewrite lookup_insert_ne.
      * by rewrite lookup_insert_eq.
      * intros x ??. by rewrite lookup_insert_ne.
    + by apply (Hmove dst).
  - destruct (dst !! f) as [[c|fs]|] eqn:Hf; cbn.
    + case_bool_decide; [|apply Hsame].
      unfold shutil_move. rewrite Hsrc, Hdst, He, Hf. apply Hsame.
    + unfold shutil_move. rewrite Hsrc, Hdst, He, Hf. apply Hsame.
    + by apply (Hmove dst).
Qed.

Lemma retain_files_entries bi name bd : name ≠ bd → ∀ files disk src dst,
  NoDup files →
  disk !! name = Some (Dir src) → disk !! bd = Some (Dir dst) →
  (∀ f, f ∈ files → is_Some (src !! f)) →
  ∃ disk' o src' dst',
    retain_files bi name bd files disk = (disk', o) ∧
    disk' !! name = Some (Dir src') ∧ disk' !! bd = Some (Dir dst') ∧
    (∀ x, x ≠ name → x ≠ bd → disk' !! x = disk !! x) ∧
    (∀ g, g ∉ files → src' !! g = src !! g ∧ dst' !! g = dst !! g) ∧
    (∀ g e, src !! g = Some e → src' !! g = Some e ∨ dst' !! g = Some e).
Proof.
  intros Hne files.
  induction files as [|f files IH]; intros disk src dst Hnd Hsrc Hdst Hin.
  { exists disk, None, src, dst. split_and!; auto. }
  apply NoDup_cons in Hnd as [Hf Hnd].
  destruct (Hin f) as [e He]; [by left|].
  destruct (retain_file_entries bi name bd f disk src dst e)
    as (disk1 & o1 & src1 & dst1 & Hstep & Hsrc1 & Hdst1 & Hfr1 & Hoth1 & Hf1);
    [done..|].
  cbn. rewrite Hstep. destruct o1 as [e1|].
  { exists disk1, (Some e1), src1, dst1. split_and!; [done..| |].
    - intros g Hg. apply Hoth1. intros ->. apply Hg. by left.
    - intros g e' Hg. destruct (decide (g = f)) as [->|Hgf].
      + by assert (e' = e) as -> by congruence.
      + destruct (Hoth1 g Hgf) as [-> _]. by left. }
  destruct (IH disk1 src1 dst1 Hnd Hsrc1 Hdst1)
    as (disk' & o & src' & dst' & Hloop & Hsrc' & Hdst' & Hfr' & Hoth' & Hkeep').
  { intros g Hg. destruct (Hoth1 g) as [-> _]; [by intros ->|].
    apply Hin. by right. }
  exists disk', o, src', dst'. split_and!; [done..| | |].
  - intros x ??. by rewrite Hfr', Hfr1.
  - intros g Hg. apply not_elem_of_cons in Hg as [Hgf Hg].
    destruct (Hoth' g Hg) as [-> ->]. by apply Hoth1.
  - intros g e' Hg. destruct (decide (g = f)) as [->|Hgf].
    + assert (e' = e) as -> by congruence.
      destruct (Hoth' f Hf) as [-> ->]. done.
    + apply Hkeep'. destruct (Hoth1 g Hgf) as [-> _]. done.
Qed.

(** The retention of a dataset whose working directory exists touches
    nothing outside the working directory and the best directory.  When it
    succeeds, the working directory is gone.  When it raises, the working
    directory is still there, and every entry that it had is still on disk,
    in the working directory or in the best directory. *)
Theorem retain_dataset_failure_keeps_entries name b disk src disk' o :
  disk !! name = Some (Dir src) →
  retain_dataset name b disk = (disk', o) →
  (∀ x, x ≠ name → x ≠ best_dir name → disk' !! x = disk !! x) ∧
  match o with
  | None => disk' !! name = None
  | Some _ =>
      ∃ src',
        disk' !! name = Some (Dir src') ∧
        ∀ f e, src !! f = Some e →
               src' !! f = Some e ∨
               ∃ dst', disk' !! best_dir name = Some (Dir dst') ∧
                       dst' !! f = Some e
  end.
Proof.
  intros Hsrc. pose proof (best_dir_ne name) as Hne.
  unfold retain_dataset, isdir, makedirs.
  destruct (disk !! best_dir name) as [[c|dst]|] eqn:Hbd.
  - intros [= <- <-]. split; [done|]. exists src. auto.
  - destruct (listdir_Dir _ _ _ Hsrc) as (files & -> & Hnd & Hfiles).
    destruct (retain_files_entries (best_ind b) name (best_dir name) Hne files
                disk src dst Hnd Hsrc Hbd)
      as (disk1 & o1 & src1 & dst1 & -> & Hsrc1 & Hdst1 & Hfr1 & _ & Hkeep);
      [by intros f; apply Hfiles|].
    destruct o1 as [e1|].
    + intros [= <- <-]. split; [done|]. exists src1. split; [done|].
      intros f e He. destruct (Hkeep f e He); [by left|right]. by exists dst1.
    + unfold rmtree. rewrite Hsrc1. intros [= <- <-]. split.
      * intros x ??. by rewrite lookup_delete_ne, Hfr1.
      * apply lookup_delete_eq.
  - assert (<[best_dir name:=Dir ∅]> disk !! name = Some (Dir src)) as Hsrc0
      by by rewrite lookup_insert_ne.
    destruct (listdir_Dir _ _ _ Hsrc0) as (files & -> & Hnd & Hfiles).
    destruct (retain_files_entries (best_ind b) name (best_dir name) Hne files
                (<[best_dir name:=Dir ∅]> disk) src ∅ Hnd Hsrc0)
      as (disk1 & o1 & src1 & dst1 & -> & Hsrc1 & Hdst1 & Hfr1 & _ & Hkeep);
      [apply lookup_insert_eq|by intros f; apply Hfiles|].
    destruct o1 as [e1|].
    + intros [= <- <-]. split.
      * intros x ??. by rewrite Hfr1, lookup_insert_ne.
      * exists src1. split; [done|].
        intros f e He. destruct (Hkeep f e He); [by left|right]. by exists dst1.
    + unfold rmtree. rewrite Hsrc1. intros [= <- <-]. split.
      * intros x ??. by rewrite lookup_delete_ne, Hfr1, lookup_insert_ne.
      * apply lookup_delete_eq.
Qed.

Lemma retain_dataset_failure_keeps_entries_witness :
  let after :=
    retain_dataset "A" (mkBest (score 8 10) (Some 2%nat)) example_disk_obstacle in
  after.2 = Some ShutilError ∧
  ∀ x, x ≠ "A"%string → x ≠ best_dir "A" →
       after.1 !! x = example_disk_obstacle !! x.
Proof.
  intros after. split; [vm_compute; reflexivity|].
  refine (proj1 (retain_dataset_failure_keeps_entries "A"
                   (mkBest (score 8 10) (Some 2%nat)) example_disk_obstacle
                   _ after.1 after.2 _ _)).
  - vm_compute; reflexivity.
  - unfold after. by destruct (retain_dataset _ _ _).
Defined.

(** A dataset recorded by the aggregation whose working directory is not
    on disk: the retention creates the empty best directory, then raises
    [FileNotFoundError] when it lists the working directory. *)
Theorem retain_dataset_without_working_dir name b disk :
  disk !! name = None → disk !! best_dir name = None →
  retain_dataset name b disk =
    (<[best_dir name := Dir ∅]> disk, Some FileNotFoundError) ∧
  isdir (retain_dataset name b disk).1 (best_dir name) = true.
Proof.
  intros Hname Hbd. pose proof (best_dir_ne name) as Hne.
  unfold retain_dataset, isdir, makedirs, listdir. rewrite Hbd.
  rewrite lookup_insert_ne, Hname by done. split; [done|].
  cbn. by rewrite lookup_insert_eq.
Qed.

Lemma retain_dataset_without_working_dir_witness :
  retain_dataset "B" (mkBest (score 8 10) (Some 1%nat)) example_disk =
    (<[best_dir "B" := Dir ∅]> example_disk, Some FileNotFoundError).
Proof.
  refine (proj1 (retain_dataset_without_working_dir "B" _ example_disk _ _));
    reflexivity.
Defined.

(** ** The test run *)

Section TestRunFacts.
Context {sample : Type}
  (read : TestConfig → gmap string (list sample))
  (get : TestConfig → gmap string (list sample) → DataIterator (sample:=sample))
  (train : TestConfig → DataIterator (sample:=sample) → result unit).

Lemma tiny_facts (part : list sample) limit keep :
  (Z.of_nat keep ≤ limit) →
  tiny part limit keep `prefix_of` part ∧
  len (tiny part limit keep) ≤ limit ∧
  (len part ≤ limit → tiny part limit keep = part) ∧
  (limit < len part → length (tiny part limit keep) = keep).
Proof.
  intros Hkeep. unfold tiny, len.
  destruct (Z.of_nat (length part) <=? limit) eqn:Hl;
    [apply Z.leb_le in Hl|apply Z.leb_gt in Hl].
  - split_and!; [done|done|done|lia].
  - split_and!; [apply prefix_take| |lia|].
    + rewrite length_take. lia.
    + intros _. rewrite length_take. lia.
Qed.

Lemma test_dataset_reader_and_iterator_Ok comp config i comp' it :
  test_dataset_reader_and_iterator read get comp config i = Ok (comp', it) →
  check_composition comp i (read config) = Ok comp' ∧
  is_data_fitting (get config (read config)) = false ∧
  check_parts config (get config (read config)) = Ok tt ∧
  ∃ tr va te,
    iter_data (get config (read config)) !! "train"%string = Some tr ∧
    iter_data (get config (read config)) !! "valid"%string = Some va ∧
    iter_data (get config (read config)) !! "test"%string = Some te ∧
    it = mkIterator false
           (<["train"%string := tiny tr 100 10]>
              (<["valid"%string := tiny va 20 5]>
                 (<["test"%string := tiny te 20 5]>
                    {[ "all"%string :=
                         tiny tr 100 10 ++ tiny va 20 5 ++ tiny te 20 5 ]})))
           (tiny tr 100 10) (tiny va 20 5) (tiny te 20 5).
Proof.
  unfold test_dataset_reader_and_iterator. intros H.
  apply bind_Ok in H as (comp1 & Hcomp & H).
  destruct (is_data_fitting _) eqn:Hfit; [done|].
  apply bind_Ok in H as ([] & Hparts & H).
  apply bind_Ok in H as (tr & Htr%getitem_Ok & H).
  apply bind_Ok in H as (va & Hva%getitem_Ok & H).
  apply bind_Ok in H as (te & Hte%getitem_Ok & [= <- <-]).
  split_and!; [done..|]. by exists tr, va, te.
Qed.

(** The iterator that the test hands to the training holds, for each
    part, a prefix of the part: the whole part when it has at most 100
    (train) or 20 (valid, test) samples, else its first 10 (train) or 5
    samples; its [data] has exactly the keys train, valid, test and all,
    with the three tiny parts and their concatenation. *)
Theorem test_iterator_is_tiny comp config i comp' it :
  test_dataset_reader_and_iterator read get comp config i = Ok (comp', it) →
  ∃ tr va te,
    iter_data (get config (read config)) !! "train"%string = Some tr ∧
    iter_data (get config (read config)) !! "valid"%string = Some va ∧
    iter_data (get config (read config)) !! "test"%string = Some te ∧
    (iter_train it `prefix_of` tr ∧ (length (iter_train it) ≤ 100)%nat ∧
     ((length tr ≤ 100)%nat → iter_train it = tr) ∧
     ((100 < length tr)%nat → length (iter_train it) = 10%nat)) ∧
    (iter_valid it `prefix_of` va ∧ (length (iter_valid it) ≤ 20)%nat ∧
     ((length va ≤ 20)%nat → iter_valid it = va) ∧
     ((20 < length va)%nat → length (iter_valid it) = 5%nat)) ∧
    (iter_test it `prefix_of` te ∧ (length (iter_test it) ≤ 20)%nat ∧
     ((length te ≤ 20)%nat → iter_test it = te) ∧
     ((20 < length te)%nat → length (iter_test it) = 5%nat)) ∧
    dom (iter_data it) = {[ "train"; "valid"; "test"; "all" ]}%string ∧
    iter_data it !! "train"%string = Some (iter_train it) ∧
    iter_data it !! "valid"%string = Some (iter_valid it) ∧
    iter_data it !! "test"%string = Some (iter_test it) ∧
    iter_data it !! "all"%string =
      Some (iter_train it ++ iter_valid it ++ iter_test it).
Proof.
  intros (_ & _ & _ & tr & va & te & Htr & Hva & Hte & ->)
    %test_dataset_reader_and_iterator_Ok.
  exists tr, va, te. cbn.
  destruct (tiny_facts tr 100 10) as (? & ? & ? & ?); [lia|].
  destruct (tiny_facts va 20 5) as (? & ? & ? & ?); [lia|].
  destruct (tiny_facts te 20 5) as (? & ? & ? & ?); [lia|].
  unfold len in *.
  split_and!; try done; try lia; try (intros; auto with lia).
Qed.

(** A configuration passes the test only on an iterator that is no
    [DataFittingIterator] and has the parts its training options need: a
    non-empty test part when [test_best] is set or there is no train
    section, a non-empty valid part when [validate_best] is set or
    [val_every_n_epochs] is positive. *)
Theorem test_needs_parts comp config i comp' it :
  test_dataset_reader_and_iterator read get comp config i = Ok (comp', it) →
  let full := iter_data (get config (read config)) in
  is_data_fitting (get config (read config)) = false ∧
  match train_section config with
  | Some tr =>
      is_Some (test_best tr) ∧ is_Some (validate_best tr) ∧
      (test_best tr = Some true → split_len full "test" ≠ 0) ∧
      (validate_best tr = Some true ∨ 0 < default 0 (val_every_n_epochs tr) →
       split_len full "valid" ≠ 0)
  | None => split_len full "test" ≠ 0
  end.
Proof.
  intros (_ & Hfit & Hparts & _)%test_dataset_reader_and_iterator_Ok full.
  split; [done|]. unfold check_parts, split_len in *. fold full in Hparts.
  assert (∀ part (u : unit),
            (getitem full part ≫= λ l, if len l =? 0 then Raise ConfigError else Ok tt)
              = Ok u → len (default [] (full !! part)) ≠ 0) as Hpart.
  { intros part u (l & Hl%getitem_Ok & Hnz)%bind_Ok. rewrite Hl. cbn.
    destruct (len l =? 0) eqn:Hz; [done|]. by apply Z.eqb_neq. }
  destruct (train_section config) as [tr|]; [|by eapply Hpart].
  apply bind_Ok in Hparts as (tb & Htb & Hparts).
  apply bind_Ok in Hparts as ([] & Htest & Hparts).
  apply bind_Ok in Hparts as (vb & Hvb & Hvalid).
  destruct (test_best tr) as [tb'|]; [|done]. injection Htb as ->.
  destruct (validate_best tr) as [vb'|]; [|done]. injection Hvb as ->.
  split_and!; [by eexists..| |].
  - intros [= ->]. by eapply Hpart.
  - intros Hv. assert (vb || (0 <? default 0 (val_every_n_epochs tr)) = true) as Hor.
    { destruct Hv as [[= ->]|Hpos]; [done|].
      rewrite (proj2 (Z.ltb_lt _ _) Hpos). by destruct vb. }
    rewrite Hor in Hvalid. by eapply Hpart.
Qed.

Lemma check_composition_first comp (data : gmap string (list sample)) :
  check_composition comp 0 data =
    Ok (mkComposition (comp_train comp || negb (split_len data "train" =? 0))
          (comp_valid comp || negb (split_len data "valid" =? 0))
          (comp_test comp || negb (split_len data "test" =? 0))).
Proof.
  unfold check_composition. cbn. do 2 f_equal;
    by destruct (_ =? 0), comp as [[] [] []].
Qed.

Lemma check_composition_later comp i (data : gmap string (list sample)) comp' :
  check_composition comp (S i) data = Ok comp' → comp' = comp ∧ covers comp data.
Proof.
  unfold check_composition, covers. cbn.
  destruct (split_len data "train" =? 0) eqn:H1;
    destruct (split_len data "valid" =? 0) eqn:H2;
    destruct (split_len data "test" =? 0) eqn:H3;
    destruct comp as [[] [] []]; cbn; intros [= <-];
    rewrite ?Z.eqb_neq in *; auto.
Qed.

Lemma test_loop_later pipes : ∀ i comp comp',
  test_loop read get train (S i) pipes comp = Ok comp' →
  comp' = comp ∧ ∀ p, p ∈ pipes → covers comp (read p).
Proof.
  induction pipes as [|p pipes IH]; intros i comp comp' H; cbn [test_loop] in H.
  { injection H as <-. split; [done|]. by intros p ?%elem_of_nil. }
  apply bind_Ok in H as ([comp1 it] & Hstep & H).
  apply bind_Ok in H as ([] & _ & H).
  apply test_dataset_reader_and_iterator_Ok in Hstep as (Hcomp & _).
  apply check_composition_later in Hcomp as [-> Hcov].
  apply IH in H as [-> Hall]. split; [done|].
  intros p' [->|?]%elem_of_cons; auto.
Qed.

(** A test that passes has taken the composition from the first dataset
    alone: the recorded parts are the non-empty parts of the first
    dataset, every later dataset has all of them, and the directory "tmp"
    has been removed from the checkpoint tree. *)
Theorem test_composition p pipes disk comp disk' :
  test read get train (p :: pipes) disk = Ok (comp, disk') →
  comp = composition_of (read p) ∧
  (∀ p', p' ∈ pipes → covers comp (read p')) ∧
  isdir disk "tmp" = true ∧ disk' = delete "tmp"%string disk.
Proof.
  unfold test. intros (comp1 & Hloop & Hrm)%bind_Ok. cbn [test_loop] in Hloop.
  apply bind_Ok in Hloop as ([comp0 it] & Hstep & Hloop).
  apply bind_Ok in Hloop as ([] & _ & Hloop).
  apply test_dataset_reader_and_iterator_Ok in Hstep as (Hcomp & _).
  rewrite check_composition_first in Hcomp. injection Hcomp as <-.
  apply test_loop_later in Hloop as [-> Hall].
  unfold rmtree, isdir in *. destruct (disk !! "tmp"%string) as [[c|d]|]; try done.
  by injection Hrm as <- <-.
Qed.

End TestRunFacts.

Lemma test_iterator_is_tiny_witness :
  ∃ comp it,
    test_dataset_reader_and_iterator example_reader example_iterator
      (mkComposition false false false) (example_test_config "big") 0
      = Ok (comp, it) ∧
    length (iter_train it) = 10%nat ∧ length (iter_valid it) = 5%nat ∧
    iter_test it = seq 0 8.
Proof.
  eexists _, _. split; [reflexivity|].
  destruct (test_iterator_is_tiny example_reader example_iterator
              (mkComposition false false false) (example_test_config "big") 0
              _ _ eq_refl)
    as (tr & va & te & Htr & Hva & Hte & (_ & _ & _ & H1) & (_ & _ & _ & H2)
        & (_ & _ & H3 & _) & _).
  assert (tr = seq 0 150) as -> by (apply (inj Some); by rewrite <-Htr).
  assert (va = seq 0 30) as -> by (apply (inj Some); by rewrite <-Hva).
  assert (te = seq 0 8) as -> by (apply (inj Some); by rewrite <-Hte).
  split; [apply H1; rewrite length_seq; lia|].
  split; [apply H2; rewrite length_seq; lia|].
  rewrite H3; [done|]. rewrite length_seq. lia.
Defined.

Lemma test_needs_parts_witness :
  ∃ comp it,
    test_dataset_reader_and_iterator example_reader example_iterator
      (mkComposition false false false) (example_test_config "small") 0
      = Ok (comp, it) ∧
    split_len (iter_data (example_iterator (example_test_config "small")
                            (example_reader (example_test_config "small"))))
      "test" ≠ 0.
Proof.
  eexists _, _. split; [reflexivity|].
  destruct (test_needs_parts example_reader example_iterator
              (mkComposition false false false) (example_test_config "small") 0
              _ _ eq_refl) as (_ & _ & _ & Htest & _).
  by apply Htest.
Defined.

Lemma test_composition_witness :
  ∃ comp disk',
    test example_reader example_iterator (λ _ _, Ok tt)
      [example_test_config "no_valid"; example_test_config "small"]
      (<["tmp"%string := Dir ∅]> example_disk) = Ok (comp, disk') ∧
    comp = mkComposition true false true ∧
    disk' = delete "tmp"%string (<["tmp"%string := Dir ∅]> example_disk).
Proof.
  destruct (test example_reader example_iterator (λ _ _, Ok tt)
              [example_test_config "no_valid"; example_test_config "small"]
              (<["tmp"%string := Dir ∅]> example_disk))
    as [[comp disk']|] eqn:Htest; [|by vm_compute in Htest].
  exists comp, disk'. split; [done|].
  destruct (test_composition _ _ _ _ _ _ _ _ Htest) as (Hcomp & _ & _ & Hdisk).
  split; [exact Hcomp|exact Hdisk].
Defined.

(** The job with batch size 1 raises [ConfigError], which the parent does
    not rebuild: the run hangs. *)
Lemma run_with_failed_job_witness :
  outcome (run 8 failing_trainer example_cv example_rebuilds example_manager
             example_logger jobs_A example_process [2; 0; 1]%nat
             example_disk) = Hangs.
Proof.
  refine (proj1 (proj2 (run_with_failed_job 8 failing_trainer example_cv
                          example_rebuilds example_manager example_logger
                          jobs_A example_process [2; 0; 1]%nat example_disk
                          ConfigError _)) eq_refl).
  apply list_elem_of_lookup. exists 2%nat. vm_compute; reflexivity.
Defined.

(** ** The best score and the order of ingestion *)

Lemma records_best_le tm rs rs' d e e' :
  rs ≡ₚ rs' → records_best tm rs d e → records_best tm rs' d e' →
  (best_score e ≤ best_score e')%Qc.
Proof.
  intros Hperm [_ Hk] [Hle' Hk'].
  destruct (best_ind e) as [k|].
  - destruct Hk as (j & r & _ & Hj & Ho & _).
    apply list_elem_of_lookup_2 in Hj. rewrite Hperm in Hj.
    apply list_elem_of_lookup_1 in Hj as [j' Hj']. by eapply Hle'.
  - rewrite Hk. destruct (best_ind e') as [k'|]; [|by rewrite Hk'].
    destruct Hk' as (_ & _ & _ & _ & _ & Hgt & _). auto with score.
Qed.

(** The best score recorded for a dataset does not depend on the order in
    which the results are ingested, as long as the same target metric is
    fixed: two ingestions of the same results in different orders record
    the same best scores (the indices may differ). *)
Theorem best_score_ignores_order self logger disk disk' rs rs' st st' d e e' :
  save_best self = true → rs ≡ₚ rs' →
  update_logger self logger disk rs = Ok st →
  update_logger self logger disk' rs' = Ok st' →
  target_metric (agg_self st) = target_metric (agg_self st') →
  dataset_res st !! d = Some e → dataset_res st' !! d = Some e' →
  best_score e = best_score e'.
Proof.
  intros Hsb Hperm Hst Hst' Htm He He'.
  destruct (update_logger_records _ _ _ _ _ Hsb Hst) as [Hrec _].
  destruct (update_logger_records _ _ _ _ _ Hsb Hst') as [Hrec' _].
  destruct (Hrec d e He) as (tm & Htm1 & Hr).
  destruct (Hrec' d e' He') as (tm' & Htm2 & Hr').
  assert (tm' = tm) as -> by congruence.
  apply Qcle_antisym.
  - by apply (records_best_le tm rs rs' d).
  - by apply (records_best_le tm rs' rs d).
Qed.

Lemma best_score_ignores_order_witness :
  ∃ st st' e e',
    update_logger example_manager example_logger example_disk
      (results_A [0; 1; 2]%nat) = Ok st ∧
    update_logger example_manager example_logger example_disk
      (results_A [2; 0; 1]%nat) = Ok st' ∧
    dataset_res st !! "A"%string = Some e ∧
    dataset_res st' !! "A"%string = Some e' ∧
    best_score e = best_score e' ∧ best_ind e ≠ best_ind e'.
Proof.
  destruct (update_logger example_manager example_logger example_disk
              (results_A [0; 1; 2]%nat)) as [st|] eqn:Hst;
    [|by vm_compute in Hst].
  destruct (update_logger example_manager example_logger example_disk
              (results_A [2; 0; 1]%nat)) as [st'|] eqn:Hst';
    [|by vm_compute in Hst'].
  assert (dataset_res st !! "A"%string = Some (mkBest (score 8 10) (Some 2%nat)))
    as He.
  { apply (f_equal (λ r, match r with
                          | Ok st => dataset_res st !! "A"%string
                          | Raise _ => None
                          end)) in Hst.
    rewrite <-Hst. vm_compute; reflexivity. }
  assert (dataset_res st' !! "A"%string = Some (mkBest (score 8 10) (Some 3%nat)))
    as He'.
  { apply (f_equal (λ r, match r with
                          | Ok st => dataset_res st !! "A"%string
                          | Raise _ => None
                          end)) in Hst'.
    rewrite <-Hst'. vm_compute; reflexivity. }
  exists st, st', (mkBest (score 8 10) (Some 2%nat)),
    (mkBest (score 8 10) (Some 3%nat)). split; [done|]. split; [done|].
  split; [exact He|]. split; [exact He'|]. split; [|done].
  refine (best_score_ignores_order example_manager example_logger example_disk
            example_disk (results_A [0; 1; 2]%nat) (results_A [2; 0; 1]%nat)
            st st' "A" _ _ eq_refl _ Hst Hst' _ He He').
  - assert (results_A [2; 0; 1]%nat =
            [Ok (<["pipe_conf"%string := VConfig (example_config "A" 2)]>
                   (<["results"%string :=
                        VMetrics {[ "test"%string :=
                                      {[ "accuracy"%string := score 3 10 ]} ]}]>
                      first_result_A))] ++ results_A [0; 1]%nat) as ->
      by (vm_compute; reflexivity).
    assert (results_A [0; 1; 2]%nat =
            results_A [0; 1]%nat ++
            [Ok (<["pipe_conf"%string := VConfig (example_config "A" 2)]>
                   (<["results"%string :=
                        VMetrics {[ "test"%string :=
                                      {[ "accuracy"%string := score 3 10 ]} ]}]>
                      first_result_A))]) as ->
      by (vm_compute; reflexivity).
    apply Permutation_app_comm.
  - apply (f_equal (λ r, match r with
                         | Ok st => target_metric (agg_self st)
                         | Raise _ => None
                         end)) in Hst, Hst'.
    rewrite <-Hst, <-Hst'. vm_compute; reflexivity.
Defined.

(** ** The construction with [multiprocessing] off *)

Lemma train_pipe_cpu_hides_devices te cv environ t_start t_end args :
  gpu args = false →
  (train_pipe te cv environ t_start t_end args).1 !! CUDA_VISIBLE_DEVICES
    = Some ""%string.
Proof.
  intros Hgpu. unfold train_pipe. rewrite Hgpu.
  destruct (if arg_cross_validation args then _ else _); cbn;
    by rewrite lookup_insert_eq.
Qed.

(** With [multiprocessing] off, the construction prints nothing and sets
    neither a worker count nor GPU slots, whatever the GPU settings and
    the requested count; the run still goes through a pool, of as many
    processes as the host has processors, and submits every configuration
    as a task without GPU, whose worker hides all devices. *)
Theorem multiprocessing_off
    cpu gpus avail check i07 te cv rb args logger gen proc completion disk :
  multiprocessing args = false → 1 ≤ cpu →
  ∃ self,
    init cpu gpus avail check i07 args = ([], Ok self) ∧
    max_num_workers self = None ∧ available_gpu self = None ∧
    Pool cpu (max_num_workers self) = Ok cpu ∧
    submitted (experiment cpu gpus avail check i07 te cv rb args logger gen
                 proc completion disk)
      = (λ c, mkArgs c (cross_validation args) (k_fold args) false None) <$> gen ∧
    ∀ task environ t_start t_end,
      task ∈ submitted (experiment cpu gpus avail check i07 te cv rb args
                          logger gen proc completion disk) →
      (train_pipe te cv environ t_start t_end task).1 !! CUDA_VISIBLE_DEVICES
        = Some ""%string.
Proof.
  intros Hmp Hcpu. unfold experiment, init. cbn. rewrite Hmp.
  eexists. split; [done|]. cbn. split_and!; [done..| |].
  - by destruct (1 <=? cpu).
  - intros task environ t0 t1 Htask. apply train_pipe_cpu_hides_devices.
    apply list_elem_of_fmap in Htask as (c & -> & _). done.
Qed.

Lemma multiprocessing_off_witness :
  ∃ self,
    init 4 4 example_gpus (λ _, true) example_int_times_07
      args_multiprocessing_off = ([], Ok self) ∧
    available_gpu self = None ∧
    length (submitted (experiment 4 4 example_gpus (λ _, true)
                         example_int_times_07 (example_trainer scores_A)
                         example_cv example_rebuilds args_multiprocessing_off
                         example_logger jobs_A example_process [0; 1; 2]%nat
                         example_disk))
      = 3%nat.
Proof.
  destruct (multiprocessing_off 4 4 example_gpus (λ _, true)
              example_int_times_07 (example_trainer scores_A) example_cv
              example_rebuilds args_multiprocessing_off example_logger jobs_A
              example_process [0; 1; 2]%nat example_disk eq_refl)
    as (self & Hinit & _ & Hgpu & _ & Hsub & _); [lia|].
  exists self. split; [exact Hinit|]. split; [exact Hgpu|].
  rewrite Hsub. reflexivity.
Defined.
